(** * Neptino maintenance scripts: a shallow embedding and its properties

    The scripts under [scripts/] locate marker lines in a source file, cut the
    file at those lines, rewrite the pieces and write them back.  This file
    embeds the text operations they use, the scripts themselves as functions
    over a file store, and states the properties of the specification over
    that embedding.

    Text is a list of characters.  Character classes (whitespace, word
    characters, digits, line breaks) are those of Python on the ASCII range;
    a marker that holds a character outside that range stands as its UTF-8
    bytes, which leaves substring search unchanged.  File contents are the
    text as Python's text mode hands it to the script. *)

From Stdlib Require Import Ascii String List ZArith Lia Bool.
From stdpp Require Import gmap strings list.

Open Scope Z_scope.
Open Scope list_scope.

(** ** Python's [str] and [list] operations, as the scripts use them *)

Module Py.

Abbreviation text := (list ascii).

(** A text literal. *)
Definition txt (s : string) : text := list_ascii_of_string s.

Definition nl : ascii := ascii_of_nat 10.
Definition dq : ascii := ascii_of_nat 34.

(** [q s] is [s] between double quotes. *)
Definition q (s : string) : text := dq :: txt s ++ [dq].

(** [str.isspace] on one character: TAB..CR, FS..US and SPACE. *)
Definition is_space (c : ascii) : bool :=
  let n := nat_of_ascii c in
  ((9 <=? n)%nat && (n <=? 13)%nat) || ((28 <=? n)%nat && (n <=? 32)%nat).

(** [s.startswith(p)] *)
Fixpoint startswith (s p : text) {struct p} : bool :=
  match p, s with
  | [], _ => true
  | _ :: _, [] => false
  | c :: p', d :: s' => Ascii.eqb c d && startswith s' p'
  end.

(** [s.endswith(p)] *)
Definition endswith (s p : text) : bool := startswith (rev s) (rev p).

(** [sub in s] *)
Fixpoint contains (sub s : text) : bool :=
  startswith s sub ||
  match s with
  | [] => false
  | _ :: s' => contains sub s'
  end.

(** [s.find(sub)], counting from position [i]: the lowest index at which
    [sub] starts, or -1. *)
Fixpoint find_from (i : Z) (sub s : text) : Z :=
  if startswith s sub then i
  else match s with
       | [] => -1
       | _ :: s' => find_from (i + 1) sub s'
       end.

Definition find (s sub : text) : Z := find_from 0 sub s.

(** [s.lstrip()], [s.rstrip()], [s.strip()] *)
Fixpoint lstrip (s : text) : text :=
  match s with
  | c :: s' => if is_space c then lstrip s' else s
  | [] => []
  end.

Definition rstrip (s : text) : text := rev (lstrip (rev s)).

Definition strip (s : text) : text := rstrip (lstrip s).

(** [s.replace(old, new)] for a non-empty [old]: every occurrence, leftmost
    first, occurrences not overlapping.  [skip] counts the characters of the
    occurrence just replaced that are still to be passed over. *)
Fixpoint replace_go (old new : text) (skip : nat) (s : text) : text :=
  match s with
  | [] => []
  | c :: s' =>
      match skip with
      | S k => replace_go old new k s'
      | O =>
          if startswith s old
          then new ++ replace_go old new (length old - 1) s'
          else c :: replace_go old new 0 s'
      end
  end.

Definition replace (s old new : text) : text := replace_go old new 0 s.

(** [s.replace(old, new, 1)]: the first occurrence only. *)
Fixpoint replace1 (s old new : text) : text :=
  if startswith s old then new ++ drop (length old) s
  else match s with
       | [] => []
       | c :: s' => c :: replace1 s' old new
       end.

(** [l[a:b]], [l[:a]] and [l[b:]] for indices that are not negative. *)
Definition slice {A} (l : list A) (a b : nat) : list A := drop a (take b l).

(** ["".join(ls)] *)
Definition join_empty (ls : list text) : text := concat ls.

(** [f.readlines()]: the lines of a text with their line feeds kept. *)
Fixpoint readlines (s : text) : list text :=
  match s with
  | [] => []
  | c :: s' =>
      if Ascii.eqb c nl then [c] :: readlines s'
      else match readlines s' with
           | [] => [[c]]
           | l :: ls => (c :: l) :: ls
           end
  end.

(** The characters at which [str.splitlines] ends a line: LF, VT, FF, CR,
    FS, GS, RS (CR LF counts once, see [splitlines]). *)
Definition is_linebreak (c : ascii) : bool :=
  let n := nat_of_ascii c in
  ((10 <=? n)%nat && (n <=? 13)%nat) || ((28 <=? n)%nat && (n <=? 30)%nat).

Definition cr : ascii := ascii_of_nat 13.

(** [s.splitlines(keepends)] *)
Fixpoint splitlines (keepends : bool) (s : text) : list text :=
  match s with
  | [] => []
  | c :: s' =>
      if Ascii.eqb c cr then
        match s' with
        | d :: s'' =>
            if Ascii.eqb d nl
            then (if keepends then [c; d] else []) :: splitlines keepends s''
            else (if keepends then [c] else []) :: splitlines keepends s'
        | [] => [if keepends then [c] else []]
        end
      else if is_linebreak c then
        (if keepends then [c] else []) :: splitlines keepends s'
      else match splitlines keepends s' with
           | [] => [[c]]
           | l :: ls => (c :: l) :: ls
           end
  end.

(** [s.split(sep)] for a one-character separator: always at least one piece. *)
Fixpoint split_on (sep : ascii) (s : text) : list text :=
  match s with
  | [] => [[]]
  | c :: s' =>
      if Ascii.eqb c sep then [] :: split_on sep s'
      else match split_on sep s' with
           | [] => [[c]]
           | l :: ls => (c :: l) :: ls
           end
  end.

(** [sep.join(ls)] for a one-character separator. *)
Fixpoint join_on (sep : ascii) (ls : list text) : text :=
  match ls with
  | [] => []
  | [l] => l
  | l :: ls' => l ++ sep :: join_on sep ls'
  end.

(** The rest of a list after its longest prefix of elements satisfying [p]. *)
Fixpoint drop_while {A} (p : A -> bool) (l : list A) : list A :=
  match l with
  | x :: l' => if p x then drop_while p l' else l
  | [] => []
  end.

(** [s.split()[0]] for a text that starts with a character that is not
    whitespace: its first whitespace-separated word. *)
Fixpoint first_word (s : text) : text :=
  match s with
  | c :: s' => if is_space c then [] else c :: first_word s'
  | [] => []
  end.

End Py.

Import Py.

(** ** The regular expressions of the scripts

    Every pattern the modelled scripts hand to [re.sub] is a sequence of
    literal characters and of greedy repetitions of one character class
    ([[^>]*], [\s*], [\n+], [\w+]), at most wrapped in a capture group.  The
    matcher below is the backtracking matcher of [re] on that fragment: a
    repetition takes as many characters as it can and gives them back one
    by one while the rest of the pattern fails. *)

Module Re.

Inductive atom : Type :=
| Chr (c : ascii)
| Star (p : ascii -> bool)
| Plus (p : ascii -> bool).

Inductive item : Type :=
| Plain (a : atom)
| Group (a : atom).

(** A pattern that is a plain text. *)
Definition lit (s : text) : list item := map (fun c => Plain (Chr c)) s.

(** [\w], [\d] and the class [[^c]]. *)
Definition is_word (c : ascii) : bool :=
  let n := nat_of_ascii c in
  ((48 <=? n)%nat && (n <=? 57)%nat) || ((65 <=? n)%nat && (n <=? 90)%nat)
  || (n =? 95)%nat || ((97 <=? n)%nat && (n <=? 122)%nat).

Definition is_digit (c : ascii) : bool :=
  let n := nat_of_ascii c in (48 <=? n)%nat && (n <=? 57)%nat.

Definition is_not (c : ascii) (d : ascii) : bool := negb (Ascii.eqb c d).

(** The greedy repetition of [p], followed by the continuation [k]: the text
    the repetition kept, and what [k] returned. *)
Fixpoint greedy {R} (p : ascii -> bool) (k : text -> option R) (s : text)
  : option (text * R) :=
  let stop := match k s with Some r => Some ([], r) | None => None end in
  match s with
  | c :: s' =>
      if p c then
        match greedy p k s' with
        | Some (m, r) => Some (c :: m, r)
        | None => stop
        end
      else stop
  | [] => stop
  end.

Definition match_atom {R} (a : atom) (k : text -> option R) (s : text)
  : option (text * R) :=
  match a with
  | Chr c =>
      match s with
      | d :: s' =>
          if Ascii.eqb c d
          then match k s' with Some r => Some ([d], r) | None => None end
          else None
      | [] => None
      end
  | Star p => greedy p k s
  | Plus p =>
      match s with
      | c :: s' =>
          if p c
          then match greedy p k s' with
               | Some (m, r) => Some (c :: m, r)
               | None => None
               end
          else None
      | [] => None
      end
  end.

(** A match of the pattern at the start of [s]: the texts of its groups and
    the text left after the match. *)
Fixpoint match_here (r : list item) (s : text) : option (list text * text) :=
  match r with
  | [] => Some ([], s)
  | Plain a :: r' =>
      match match_atom a (match_here r') s with
      | Some (_, res) => Some res
      | None => None
      end
  | Group a :: r' =>
      match match_atom a (match_here r') s with
      | Some (m, (gs, rest)) => Some (m :: gs, rest)
      | None => None
      end
  end.

(** A replacement template: plain text and group references ([\1] is
    [Ref 1]). *)
Inductive piece : Set :=
| Txt (s : text)
| Ref (n : nat).

Definition expand (tmpl : list piece) (groups : list text) : text :=
  concat (map (fun pc => match pc with
                         | Txt s => s
                         | Ref n => nth (n - 1) groups []
                         end) tmpl).

(** [re.sub(pattern, repl, s)]: the matches from left to right, none
    overlapping another.  [skip] counts the characters of the last match
    still to be passed over. *)
Fixpoint sub_go (r : list item) (tmpl : list piece) (skip : nat) (s : text) : text :=
  match s with
  | [] =>
      match skip, match_here r [] with
      | O, Some (gs, _) => expand tmpl gs
      | _, _ => []
      end
  | c :: s' =>
      match skip with
      | S k => sub_go r tmpl k s'
      | O =>
          match match_here r s with
          | Some (gs, rest) =>
              match (length s - length rest)%nat with
              | O => expand tmpl gs ++ c :: sub_go r tmpl 0 s'
              | S k => expand tmpl gs ++ sub_go r tmpl k s'
              end
          | None => c :: sub_go r tmpl 0 s'
          end
      end
  end.

Definition sub (r : list item) (tmpl : list piece) (s : text) : text :=
  sub_go r tmpl 0 s.

End Re.

(** ** The process and its files *)

Module Os.

(** The exceptions the scripts let escape. *)
Inductive exn : Set :=
| FileNotFoundError
| ValueError (pattern : text).

(** How a run ends: [sys.exit(code)] or the end of the script ([Exit 0]),
    or an exception nobody caught. *)
Inductive status : Set :=
| Exit (code : Z)
| Raised (e : exn).

(** The process result: an uncaught exception ends the interpreter with 1. *)
Definition exit_code (st : status) : Z :=
  match st with
  | Exit c => c
  | Raised _ => 1
  end.

(** A value or a raised exception, and sequencing that stops at the first
    exception. *)
Inductive res (A : Type) : Type :=
| Ok (a : A)
| Raise (e : exn).

Arguments Ok {A} a.
Arguments Raise {A} e.

Definition bind {A B} (c : res A) (k : A -> res B) : res B :=
  match c with
  | Ok a => k a
  | Raise e => Raise e
  end.

(** The files, by path. *)
Abbreviation store := (gmap string text).

(** [open(path, "w")] followed by [f.write(content)]: the previous content
    is replaced. *)
Definition write_file (path : string) (content : text) (fs : store) : store :=
  <[path := content]> fs.

End Os.

Import Os.

Notation "x <- c ;; k" := (bind c (fun x => k))
  (at level 100, c at next level, right associativity).

(** ** scripts/split-toolbar.py *)

Module SplitToolbar.

Definition toolbar_path : string :=
  "/Users/benjaminjacklaubacher/Neptino/src/components/coursebuilder/create/toolbar/ToolBar.tsx".

Definition options_path : string :=
  "/Users/benjaminjacklaubacher/Neptino/src/components/coursebuilder/create/toolbar/toolbar-options.tsx".

(** [find_line(lines, text)]: the index of the first line that holds
    [text], or -1. *)
Fixpoint find_line_from (i : Z) (lines : list text) (t : text) : Z :=
  match lines with
  | [] => -1
  | line :: rest =>
      if contains t line then i else find_line_from (i + 1) rest t
  end.

Definition find_line (lines : list text) (t : text) : Z :=
  find_line_from 0 lines t.

Definition opt_primitives_marker : text := txt "// ─── Option primitives".
Definition opts_strip_marker : text := txt "// ─── Tool options strip".
Definition tool_button_marker : text := txt "function ToolButton<".
Definition toolbar_marker : text := txt "export function ToolBar()".

Definition opt_primitives_start (lines : list text) : Z :=
  find_line lines opt_primitives_marker.

Definition opts_strip_comment_start (lines : list text) : Z :=
  find_line lines opts_strip_marker.

Definition tool_button_start (lines : list text) : Z :=
  find_line lines tool_button_marker.

Definition toolbar_start (lines : list text) : Z :=
  find_line lines toolbar_marker.

(** The guard before the split: [any(x == -1 for x in [...])]. *)
Definition boundary_missing (lines : list text) : bool :=
  existsb (Z.eqb (-1))
    [opt_primitives_start lines; opts_strip_comment_start lines;
     tool_button_start lines; toolbar_start lines].

(** [lines[opt_primitives_start:tool_button_start]] *)
Definition options_lines (lines : list text) : list text :=
  slice lines (Z.to_nat (opt_primitives_start lines))
              (Z.to_nat (tool_button_start lines)).

Definition options_header : text :=
  q "use client" ++ [nl] ++
  [nl] ++
  txt "import { useState } from " ++ q "react" ++ [nl] ++
  txt "import type { BuildTool, AnimateTool } from " ++ q "../store/canvasStore" ++ [nl] ++
  [nl].

Definition options_content (lines : list text) : text :=
  replace (options_header ++ join_empty (options_lines lines))
          (txt "function ToolOptionsStrip(")
          (txt "export function ToolOptionsStrip(").

Definition import_line : text :=
  txt "import { ToolOptionsStrip } from " ++ q "./toolbar-options" ++ [nl].

(** [lines[:opt_primitives_start]], before the import line is inserted. *)
Definition kept_start (lines : list text) : list text :=
  take (Z.to_nat (opt_primitives_start lines)) lines.

(** [lines[tool_button_start:]] *)
Definition kept_end (lines : list text) : list text :=
  drop (Z.to_nat (tool_button_start lines)) lines.

(** The loop over [enumerate(kept_start)] that remembers the last line
    whose stripped text starts with [import]; 0 when there is none. *)
Fixpoint last_import_from (i last : nat) (ls : list text) : nat :=
  match ls with
  | [] => last
  | line :: rest =>
      last_import_from (S i)
        (if startswith (strip line) (txt "import") then i else last) rest
  end.

Definition last_import_idx (lines : list text) : nat :=
  last_import_from 0 0 (kept_start lines).

(** [l.insert(i, x)]: before index [i], at the end when [i] is past it. *)
Definition list_insert_at {A} (i : nat) (x : A) (l : list A) : list A :=
  take i l ++ x :: drop i l.

Definition kept_start_with_import (lines : list text) : list text :=
  list_insert_at (last_import_idx lines + 1) import_line (kept_start lines).

Definition new_toolbar_content (lines : list text) : text :=
  join_empty (kept_start_with_import lines ++ kept_end lines).

(** The two writes at the end of the script. *)
Definition emit (new_toolbar_content options_content : text) (fs : store) : store :=
  write_file options_path options_content
    (write_file toolbar_path new_toolbar_content fs).

(** The whole script. *)
Definition run (fs : store) : status * store :=
  match fs !! toolbar_path with
  | None => (Raised FileNotFoundError, fs)
  | Some content =>
      let lines := readlines content in
      if boundary_missing lines then (Exit 1, fs)
      else (Exit 0, emit (new_toolbar_content lines) (options_content lines) fs)
  end.

End SplitToolbar.

(** ** scripts/split-canvas-projection.py *)

Module SplitCanvasProjection.

Definition path : string :=
  "/Users/benjaminjacklaubacher/Neptino/src/lib/curriculum/canvas-projection.ts".

Definition projector_path : string :=
  "/Users/benjaminjacklaubacher/Neptino/src/lib/curriculum/canvas-lesson-projector.ts".

(** The marker's predicate:
    [line.strip().startswith("function estimateSessionPages")]. *)
Definition is_boundary (line : text) : bool :=
  startswith (strip line) (txt "function estimateSessionPages").

(** The search loop: the index of the first boundary line, [None] when the
    loop ends without a [break]. *)
Fixpoint boundary_from (i : nat) (lines : list text) : option nat :=
  match lines with
  | [] => None
  | line :: rest =>
      if is_boundary line then Some i else boundary_from (S i) rest
  end.

Definition boundary_line (lines : list text) : option nat :=
  boundary_from 0 lines.

Definition is_blank (line : text) : bool :=
  match strip line with [] => true | _ => false end.

(** [while l and l[-1].strip() == "": l.pop()] *)
Definition pop_trailing_blank (l : list text) : list text :=
  rev (drop_while is_blank (rev l)).

(** Part 1 as cut: [lines[:boundary_line]]. *)
Definition projection_raw (lines : list text) (b : nat) : list text :=
  take b lines.

(** Part 1 as written: trailing blank lines removed, one line feed added. *)
Definition projection_lines (lines : list text) (b : nat) : list text :=
  pop_trailing_blank (projection_raw lines b) ++ [[nl]].

(** Part 2: [lines[boundary_line:]]. *)
Definition projector_lines (lines : list text) (b : nat) : list text :=
  drop b lines.

Definition projector_header : list text :=
  [ txt "// Full canvas lesson projector extracted from canvas-projection.ts" ++ [nl];
    txt "import {" ++ [nl];
    txt "  planLessonBodyLayout, estimateExpandedTaskCount," ++ [nl];
    txt "  resolveEnabledBlocks, resolveTemplateFieldState," ++ [nl];
    txt "  type RawCurriculumSessionRow, type RawScheduleGeneratedEntry, type LessonCanvasPageProjection," ++ [nl];
    txt "} from " ++ q "@/lib/curriculum/canvas-projection" ++ [nl];
    txt "import { resolveTemplateSelection, type NormalizedTemplateConfig } from "
      ++ q "@/lib/curriculum/template-source-of-truth" ++ [nl];
    txt "import type { TemplateType, TemplateBlockType } from "
      ++ q "@/lib/curriculum/template-blocks" ++ [nl];
    [nl] ].

Definition projector_content (lines : list text) (b : nat) : list text :=
  projector_header ++ projector_lines lines b.

(** The two writes at the end of the script; [f.writelines(ls)] writes the
    lines one after another. *)
Definition emit (projection_lines projector_content : list text) (fs : store)
  : store :=
  write_file projector_path (join_empty projector_content)
    (write_file path (join_empty projection_lines) fs).

(** The whole script. *)
Definition run (fs : store) : status * store :=
  match fs !! path with
  | None => (Raised FileNotFoundError, fs)
  | Some content =>
      let lines := readlines content in
      match boundary_line lines with
      | None => (Exit 1, fs)
      | Some b =>
          (Exit 0, emit (projection_lines lines b) (projector_content lines b) fs)
      end
  end.

End SplitCanvasProjection.

(** ** scripts/split-template-blueprint.py *)

Module SplitTemplateBlueprint.

Definition MAIN : string := "src/components/coursebuilder/template-blueprint.tsx".
Definition TYPES_FILE : string := "src/components/coursebuilder/template-blueprint-types.tsx".
Definition MEDIA_FILE : string := "src/components/coursebuilder/template-blueprint-media.tsx".
Definition SLOT_FILE : string := "src/components/coursebuilder/template-blueprint-slot-views.tsx".
Definition LIVE_FILE : string := "src/components/coursebuilder/template-blueprint-live.tsx".

(** The loop of [find_line] over [enumerate(src.splitlines())]. *)
Fixpoint find_line_from (i : nat) (pattern : text) (ls : list text) : option nat :=
  match ls with
  | [] => None
  | line :: rest =>
      if contains pattern line then Some i else find_line_from (S i) pattern rest
  end.

(** [find_line(pattern, src)]: the 0-based number of the first line that
    holds [pattern]; [ValueError] when no line does. *)
Definition find_line (pattern src : text) : res nat :=
  match find_line_from 0 pattern (splitlines false src) with
  | Some i => Ok i
  | None => Raise (ValueError pattern)
  end.

Record boundaries : Set := {
  types_start : nat;
  media_start : nat;
  slot_views_start : nat;
  live_start : nat;
  main_start : nat;
  props_start : nat
}.

Definition types_marker : text := txt "export interface TemplateAreaMediaItem {".
Definition media_marker : text := txt "function resolveEmbedUrl(url: string): string | null {".
Definition slot_views_marker : text :=
  txt "function SlotSectionLabel({ children }: { children: React.ReactNode }) {".
Definition live_marker : text := txt "function LiveNestedSlot({".
Definition main_marker : text := txt "export function JsonTemplatePreview({".
Definition props_marker : text := txt "interface TemplateBlueprintProps {".

(** The six calls of [find_line], in the order the script makes them. *)
Definition locate (src : text) : res boundaries :=
  ts <- find_line types_marker src ;;
  ms <- find_line media_marker src ;;
  ss <- find_line slot_views_marker src ;;
  ls <- find_line live_marker src ;;
  mn <- find_line main_marker src ;;
  ps <- find_line props_marker src ;;
  Ok {| types_start := ts; media_start := ms; slot_views_start := ss;
        live_start := ls; main_start := mn; props_start := ps |}.

Definition all_lines (src : text) : list text := splitlines true src.

(** [extract_lines(start, end)] *)
Definition extract_lines (src : text) (start stop : nat) : text :=
  join_empty (slice (all_lines src) start stop).

Definition types_block src b := extract_lines src (types_start b) (media_start b).
Definition media_block src b := extract_lines src (media_start b) (slot_views_start b).
Definition slot_views_block src b := extract_lines src (slot_views_start b) (live_start b).
Definition live_block src b := extract_lines src (live_start b) (main_start b).
Definition main_block src b := extract_lines src (main_start b) (length (all_lines src)).
Definition props_block src b := extract_lines src (props_start b) (types_start b).
Definition original_imports src b := extract_lines src 0 (props_start b).

Definition types_header : text :=
  q "use client" ++ [nl] ++
  txt "// Types, context, and utility functions shared across template-blueprint modules." ++ [nl] ++
  [nl] ++
  txt "import React from " ++ q "react" ++ [nl] ++
  txt "import type { BlockId } from " ++ q "@/components/coursebuilder/sections/templates-section" ++ [nl] ++
  [nl].

Definition types_content src b : text :=
  let c := types_header ++ types_block src b in
  let c := replace c (txt "const SCALE_CONFIG = {") (txt "export const SCALE_CONFIG = {") in
  let c := replace c (txt "const TemplateBlueprintContext = ")
                     (txt "export const TemplateBlueprintContext = ") in
  let c := replace c (txt "interface TemplateBlueprintContextValue {")
                     (txt "export interface TemplateBlueprintContextValue {") in
  replace c (txt "function useTemplateBlueprintContext()")
            (txt "export function useTemplateBlueprintContext()").

(** The media block, cut at the comment that opens the renderer section
    when that comment is in it. *)
Definition media_content_raw src b : text :=
  let raw := media_block src b in
  let renderer_comment_start := find raw (txt "// ─── JSON Blueprint Renderer") in
  if renderer_comment_start =? -1 then raw
  else take (Z.to_nat renderer_comment_start) raw.

Definition media_header : text :=
  q "use client" ++ [nl] ++
  txt "// Media preview and drop-zone components for template-blueprint." ++ [nl] ++
  [nl] ++
  txt "import React from " ++ q "react" ++ [nl] ++
  txt "import { useDroppable } from " ++ q "@dnd-kit/core" ++ [nl] ++
  txt "import type { TemplateAreaMediaItem } from " ++ q "./template-blueprint-types" ++ [nl] ++
  [nl].

(** The pair of texts of [replace("\nfunction X(", "\nexport function X(")]. *)
Definition private_fn (fn_name : text) : text :=
  [nl] ++ txt "function " ++ fn_name ++ txt "(".

Definition exported_fn (fn_name : text) : text :=
  [nl] ++ txt "export function " ++ fn_name ++ txt "(".

Definition export_fn (content fn_name : text) : text :=
  replace content (private_fn fn_name) (exported_fn fn_name).

Definition media_content src b : text :=
  let c := media_header ++ media_content_raw src b in
  let c := export_fn c (txt "MediaPreview") in
  export_fn c (txt "TaskAreaDropZone").

Definition slot_header : text :=
  q "use client" ++ [nl] ++
  txt "// Static slot view components used in the JSON-driven blueprint renderer." ++ [nl] ++
  [nl] ++
  txt "import React from " ++ q "react" ++ [nl] ++
  [nl].

Definition slot_fn_names : list text :=
  map txt
    ["SlotSectionLabel"; "TableSlotView"; "NestedSlotView"; "ScoringRubricView";
     "TocListView"; "CertificateBodyView"; "DiscussionPromptView";
     "ReflectionJournalView"; "SurveyFormView"]%string.

Definition slot_content src b : text :=
  fold_left export_fn slot_fn_names (slot_header ++ slot_views_block src b).

Definition live_header : text :=
  q "use client" ++ [nl] ++
  txt "// Live (data-driven) canvas components: LiveNestedSlot, BlueprintBodySlot, MarginBand." ++ [nl] ++
  [nl] ++
  txt "import React from " ++ q "react" ++ [nl] ++
  txt "import {" ++ [nl] ++
  txt "  useTemplateBlueprintContext," ++ [nl] ++
  txt "  buildStableTaskKey," ++ [nl] ++
  txt "  buildTaskAreaKey," ++ [nl] ++
  txt "  type TemplateBlueprintData," ++ [nl] ++
  txt "  type TaskAreaKind," ++ [nl] ++
  txt "} from " ++ q "./template-blueprint-types" ++ [nl] ++
  txt "import { TaskAreaDropZone } from " ++ q "./template-blueprint-media" ++ [nl] ++
  txt "import {" ++ [nl] ++
  txt "  SlotSectionLabel," ++ [nl] ++
  txt "  NestedSlotView," ++ [nl] ++
  txt "  TableSlotView," ++ [nl] ++
  txt "  ScoringRubricView," ++ [nl] ++
  txt "  TocListView," ++ [nl] ++
  txt "  CertificateBodyView," ++ [nl] ++
  txt "  DiscussionPromptView," ++ [nl] ++
  txt "  ReflectionJournalView," ++ [nl] ++
  txt "  SurveyFormView," ++ [nl] ++
  txt "} from " ++ q "./template-blueprint-slot-views" ++ [nl] ++
  txt "import { slotToBlockId, type BodySlot } from " ++ q "@/lib/curriculum/template-json-blueprints" ++ [nl] ++
  txt "import type { BlockId } from " ++ q "@/components/coursebuilder/sections/templates-section" ++ [nl] ++
  [nl].

Definition live_fn_names : list text :=
  map txt ["LiveNestedSlot"; "BlueprintBodySlot"; "MarginBand"]%string.

Definition live_content src b : text :=
  fold_left export_fn live_fn_names (live_header ++ live_block src b).

Definition droppable_import : text :=
  [nl] ++ txt "import { useDroppable } from " ++ q "@dnd-kit/core" ++ [nl].

Definition original_imports_clean src b : text :=
  replace (original_imports src b) droppable_import [nl].

Definition main_imports : text :=
  [nl] ++
  txt "import {" ++ [nl] ++
  txt "  TemplateBlueprintContext," ++ [nl] ++
  txt "  SCALE_CONFIG," ++ [nl] ++
  txt "  type TemplateAreaMediaItem," ++ [nl] ++
  txt "  type TaskAreaKind," ++ [nl] ++
  txt "  type TemplateBlueprintData," ++ [nl] ++
  txt "} from " ++ q "./template-blueprint-types" ++ [nl] ++
  txt "import { BlueprintBodySlot, MarginBand } from " ++ q "./template-blueprint-live" ++ [nl].

Definition props_block_clean src b : text :=
  replace (props_block src b) droppable_import [nl].

Definition new_main_content src b : text :=
  original_imports_clean src b ++ main_imports ++ props_block_clean src b ++ main_block src b.

(** The five writes, in the script's order. *)
Definition emit (src : text) (b : boundaries) (fs : store) : store :=
  write_file MAIN (new_main_content src b)
    (write_file LIVE_FILE (live_content src b)
       (write_file SLOT_FILE (slot_content src b)
          (write_file MEDIA_FILE (media_content src b)
             (write_file TYPES_FILE (types_content src b) fs)))).

(** The whole script. *)
Definition run (fs : store) : status * store :=
  match fs !! MAIN with
  | None => (Raised FileNotFoundError, fs)
  | Some src =>
      match locate src with
      | Raise e => (Raised e, fs)
      | Ok b => (Exit 0, emit src b fs)
      end
  end.

End SplitTemplateBlueprint.

(** ** scripts/update-route.py *)

Module UpdateRoute.

Definition path : string :=
  "/Users/benjaminjacklaubacher/Neptino/src/app/api/generate-curriculum/route.ts".

Definition new_imports : text :=
  txt "import {" ++ [nl] ++
  txt "  repairJSON," ++ [nl] ++
  txt "  extractLessonsViaRegex," ++ [nl] ++
  txt "  extractModulesViaRegex," ++ [nl] ++
  txt "  cleanModelOutput," ++ [nl] ++
  txt "  fitToCount," ++ [nl] ++
  txt "  normalizeGeneratedLessons," ++ [nl] ++
  txt "} from " ++ q "./generation-route-utils" ++ [nl] ++
  txt "import type { GeneratedLesson, GeneratedModule } from " ++ q "./generation-route-utils" ++ [nl].

Definition old_anchor : text :=
  txt "import type { GenerationAction } from " ++ q "@/lib/curriculum/ai-generation-service" ++ [nl].

(** The two fixed parts of the pattern
    [\n/\*\* Shape ... \*/\n.*?(?=\nconst SYSTEM_PROMPT_BASE)]. *)
Definition block_open : text :=
  [nl] ++ txt "/** Shape of each lesson in the generated curriculum */" ++ [nl].

Definition block_close : text := [nl] ++ txt "const SYSTEM_PROMPT_BASE".

(** A match of the pattern that starts where [s] starts: [block_open], then
    as few characters as possible (any character, under [re.DOTALL]) up to
    the first place where [block_close] follows.  The result is the length
    of the match. *)
Definition match_block_here (s : text) : option nat :=
  if startswith s block_open then
    let k := find (drop (length block_open) s) block_close in
    if k =? -1 then None else Some (length block_open + Z.to_nat k)%nat
  else None.

(** [re.search(pattern, content, re.DOTALL)]: the leftmost match, as
    (start, end). *)
Fixpoint search_block_from (i : nat) (s : text) : option (nat * nat) :=
  match match_block_here s with
  | Some n => Some (i, (i + n)%nat)
  | None =>
      match s with
      | [] => None
      | _ :: s' => search_block_from (S i) s'
      end
  end.

Definition search_block (content : text) : option (nat * nat) :=
  search_block_from 0 content.

(** The whole script. *)
Definition run (fs : store) : status * store :=
  match fs !! path with
  | None => (Raised FileNotFoundError, fs)
  | Some content =>
      if negb (contains old_anchor content) then (Exit 1, fs)
      else
        let content := replace1 content old_anchor (old_anchor ++ new_imports) in
        match search_block content with
        | None => (Exit 1, fs)
        | Some (start, stop) =>
            (Exit 0, write_file path (take start content ++ drop stop content) fs)
        end
  end.

End UpdateRoute.

(** ** cleanup-html-simple.py *)

Module CleanupHtmlSimple.

Import Re.

Definition gt : ascii := ascii_of_nat 62.
Definition space : ascii := ascii_of_nat 32.

(** [<div[^>]*>\s*</div>] and [<span[^>]*>\s*</span>] *)
Definition empty_div : list item :=
  lit (txt "<div") ++ [Plain (Star (is_not gt))] ++ lit (txt ">")
  ++ [Plain (Star is_space)] ++ lit (txt "</div>").

Definition empty_span : list item :=
  lit (txt "<span") ++ [Plain (Star (is_not gt))] ++ lit (txt ">")
  ++ [Plain (Star is_space)] ++ lit (txt "</span>").

(** [<div[^>]*>\s*<!--[^>]*-->\s*</div>] *)
Definition comment_div : list item :=
  lit (txt "<div") ++ [Plain (Star (is_not gt))] ++ lit (txt ">")
  ++ [Plain (Star is_space)] ++ lit (txt "<!--") ++ [Plain (Star (is_not gt))]
  ++ lit (txt "-->") ++ [Plain (Star is_space)] ++ lit (txt "</div>").

(** [</div>\s*<div[^>]*>\s*<a] *)
Definition div_before_a : list item :=
  lit (txt "</div>") ++ [Plain (Star is_space)] ++ lit (txt "<div")
  ++ [Plain (Star (is_not gt))] ++ lit (txt ">") ++ [Plain (Star is_space)]
  ++ lit (txt "<a").

(** [</a>\s*</nav>] *)
Definition a_before_nav : list item :=
  lit (txt "</a>") ++ [Plain (Star is_space)] ++ lit (txt "</nav>").

(** [\n\s*\n\s*\n+] *)
Definition blank_lines : list item :=
  [Plain (Chr nl); Plain (Star is_space); Plain (Chr nl); Plain (Star is_space);
   Plain (Plus (Ascii.eqb nl))].

(** Two spaces and [ +]. *)
Definition spaces : list item :=
  [Plain (Chr space); Plain (Plus (Ascii.eqb space))].

(** The seven substitutions, in the script's order. *)
Definition substitute (content : text) : text :=
  let content := sub empty_div [] content in
  let content := sub empty_span [] content in
  let content := sub comment_div [] content in
  let content := sub div_before_a [Txt (txt "<a")] content in
  let content := sub a_before_nav [Txt (txt "</a>" ++ [nl] ++ txt "</nav>")] content in
  let content := sub blank_lines [Txt [nl; nl]] content in
  sub spaces [Txt (txt "  ")] content.

(** ['  ' * indent_level] *)
Definition indent (indent_level : nat) : text :=
  concat (replicate indent_level (txt "  ")).

(** The tags after which the indentation does not grow. *)
Definition void_tags : list text :=
  map txt ["input"; "img"; "br"; "hr"; "meta"; "link"]%string.

Definition text_eqb (a b : text) : bool := bool_decide (a = b).

(** [stripped.split()[0][1:].split('>')[0]] *)
Definition tag_name (stripped : text) : text :=
  match split_on gt (drop 1 (first_word stripped)) with
  | t :: _ => t
  | [] => []
  end.

(** Whether the line opens an element: the condition of the script's last
    [if], with the test on the tag name. *)
Definition opens_element (stripped : text) : bool :=
  startswith stripped (txt "<") && negb (startswith stripped (txt "</"))
  && negb (endswith stripped (txt "/>")) && negb (startswith stripped (txt "<!"))
  && negb (existsb (text_eqb (tag_name stripped)) void_tags).

(** The loop over the lines: [indent_level] is threaded through. *)
Fixpoint fix_lines (indent_level : nat) (lines : list text) : list text :=
  match lines with
  | [] => []
  | line :: rest =>
      let stripped := strip line in
      match stripped with
      | [] => [] :: fix_lines indent_level rest
      | _ :: _ =>
          let indent_level :=
            if startswith stripped (txt "</") then Nat.pred indent_level
            else indent_level in
          (indent indent_level ++ stripped)
            :: fix_lines (if opens_element stripped then S indent_level
                          else indent_level) rest
      end
  end.

(** The indentation pass: split at line feeds, re-indent, join. *)
Definition fix_indentation (content : text) : text :=
  join_on nl (fix_lines 0 (split_on nl content)).

(** What the script does to the content of one file. *)
Definition clean (content : text) : text :=
  fix_indentation (substitute content).

(** [clean_html_structure_simple(file_path)]; a file that cannot be read
    lands in the [except] branch, which prints and writes nothing. *)
Definition clean_html_structure_simple (file_path : string) (fs : store) : store :=
  match fs !! file_path with
  | None => fs
  | Some content => write_file file_path (clean content) fs
  end.

End CleanupHtmlSimple.

(** ** update_nav_classes.py *)

Module UpdateNavClasses.

Import Re.

(** [class="nav nav--(\w+)"] and its replacement [class="ul ul--\1"] *)
Definition nav_class : list item :=
  lit (txt "class=" ++ [dq] ++ txt "nav nav--") ++ [Group (Plus is_word)] ++ lit [dq].

Definition ul_class : list piece :=
  [Txt (txt "class=" ++ [dq] ++ txt "ul ul--"); Ref 1; Txt [dq]].

(** The eight substitutions, in the script's order. *)
Definition substitute (content : text) : text :=
  let content := sub nav_class ul_class content in
  let content := sub (lit (txt "nav__item")) [Txt (txt "ul__item")] content in
  let content := sub (lit (txt "nav__link link" ++ [dq]))
                     [Txt (txt "link link--header" ++ [dq])] content in
  let content := sub (lit (txt "nav__link link link--subtle"))
                     [Txt (txt "link link--footer link--subtle")] content in
  let content := sub (lit (txt "nav__link" ++ [dq])) [Txt (txt "link" ++ [dq])] content in
  let content := sub (lit (txt "nav__brand")) [Txt (txt "brand")] content in
  let content := sub (lit (txt "nav__cta")) [Txt (txt "cta")] content in
  sub (lit ([dq] ++ txt "nav nav--")) [Txt ([dq] ++ txt "ul ul--")] content.

(** The write at the end of the function: only when the content changed. *)
Definition write_back (file_path : string) (original_content content : text)
    (fs : store) : bool * store :=
  if bool_decide (content <> original_content)
  then (true, write_file file_path content fs)
  else (false, fs).

(** [update_navigation_classes(file_path)]: the value returned and the files
    afterwards; a file that cannot be read lands in the [except] branch. *)
Definition update_navigation_classes (file_path : string) (fs : store)
  : bool * store :=
  match fs !! file_path with
  | None => (false, fs)
  | Some original_content =>
      write_back file_path original_content (substitute original_content) fs
  end.

End UpdateNavClasses.

(** ** scripts/rebuild-isced-data.py *)

Module RebuildIsced.

Import Re.

(** One row of the CSV file as [csv.DictReader] hands it over: the two
    columns the script reads, [None] when the row has no such column. *)
Record row : Set := { Notation_ : option text; Label_ : option text }.

Record node : Set := { value : text; label : text; code : text }.

Record topic : Set := { topic_node : node; subtopics : list node }.
Record subject : Set := { subject_node : node; topics : list topic }.
Record domain : Set := { domain_node : node; subjects : list subject }.

(** [re.fullmatch(r"F(\d{2}|\d{3}|\d{4})", notation)]: the group, when the
    text is an F followed by two, three or four digits. *)
Definition match_notation (notation : text) : option text :=
  match notation with
  | c :: digits =>
      if Ascii.eqb c "F" && forallb is_digit digits
         && ((length digits =? 2)%nat || (length digits =? 3)%nat
             || (length digits =? 4)%nat)
      then Some digits else None
  | [] => None
  end.

(** The loop that keeps the canonical codes. *)
Fixpoint items (rows : list row) : list (text * text) :=
  match rows with
  | [] => []
  | r :: rest =>
      let notation := strip (default [] (Notation_ r)) in
      let label := strip (default [] (Label_ r)) in
      match match_notation notation with
      | None => items rest
      | Some code => (code, label) :: items rest
      end
  end.

(** The dictionary [labels], in insertion order. *)
Definition has_key (labels : list (text * text)) (c : text) : bool :=
  existsb (fun kv => bool_decide (kv.1 = c)) labels.

(** [labels.setdefault(code, label)] *)
Definition setdefault (labels : list (text * text)) (c l : text)
  : list (text * text) :=
  if has_key labels c then labels else labels ++ [(c, l)].

Definition build_labels (its : list (text * text)) : list (text * text) :=
  fold_left (fun labels cl => setdefault labels cl.1 cl.2) its [].

(** [labels[c]] for a key that is there. *)
Fixpoint lookup_label (labels : list (text * text)) (c : text) : text :=
  match labels with
  | [] => []
  | (k, l) :: rest => if bool_decide (k = c) then l else lookup_label rest c
  end.

(** The order of [sorted] on texts: by character code, a prefix first. *)
Fixpoint text_leb (a b : text) : bool :=
  match a, b with
  | [], _ => true
  | _ :: _, [] => false
  | c :: a', d :: b' =>
      (nat_of_ascii c <? nat_of_ascii d)%nat
      || ((nat_of_ascii c =? nat_of_ascii d)%nat && text_leb a' b')
  end.

Fixpoint insert_sorted (x : text) (l : list text) : list text :=
  match l with
  | [] => [x]
  | y :: l' => if text_leb x y then x :: l else y :: insert_sorted x l'
  end.

(** [sorted(l)] *)
Definition sorted (l : list text) : list text :=
  fold_right insert_sorted [] l.

Definition keys (labels : list (text * text)) : list text := map fst labels.

Definition broad_codes (labels : list (text * text)) : list text :=
  sorted (filter (fun c => length c = 2%nat) (keys labels)).

Definition narrow_codes (labels : list (text * text)) : list text :=
  sorted (filter (fun c => length c = 3%nat /\ has_key labels (take 2 c) = true)
                 (keys labels)).

Definition detailed_codes (labels : list (text * text)) : list text :=
  sorted (filter (fun c => length c = 4%nat /\ has_key labels (take 3 c) = true)
                 (keys labels)).

Section Build.

(** [unicodedata.normalize("NFKD", text).encode("ascii", "ignore").decode("ascii")]:
    the Unicode tables behind it are the library's. *)
Variable ascii_fold : text -> text.

Definition lower_char (c : ascii) : ascii :=
  let n := nat_of_ascii c in
  if (65 <=? n)%nat && (n <=? 90)%nat then ascii_of_nat (n + 32) else c.

Definition is_lower_alnum (c : ascii) : bool :=
  let n := nat_of_ascii c in
  ((48 <=? n)%nat && (n <=? 57)%nat) || ((97 <=? n)%nat && (n <=? 122)%nat).

Definition hyphen : ascii := ascii_of_nat 45.

(** [s.strip("-")] *)
Definition strip_hyphens (s : text) : text :=
  rev (drop_while (Ascii.eqb hyphen) (rev (drop_while (Ascii.eqb hyphen) s))).

Definition slugify (t : text) : text :=
  let t := map lower_char (ascii_fold t) in
  let t := strip_hyphens
             (sub [Plain (Plus (fun c => negb (is_lower_alnum c)))] [Txt [hyphen]] t) in
  let t := sub [Plain (Plus (Ascii.eqb hyphen))] [Txt [hyphen]] t in
  match t with
  | [] => txt "item"
  | _ :: _ => t
  end.

(** [node(code, label)] *)
Definition mk_node (c l : text) : node :=
  {| value := c ++ [hyphen] ++ slugify l; label := l; code := c |}.

Definition other_subtopic (dc : text) : node :=
  {| value := dc ++ txt "-other"; label := txt "Other"; code := dc ++ txt "-other" |}.

(** The three nested loops that build [domains]. *)
Definition build_topic (labels : list (text * text)) (dc : text) : topic :=
  {| topic_node := mk_node dc (lookup_label labels dc);
     subtopics := [other_subtopic dc] |}.

Definition build_subject (labels : list (text * text)) (nc : text) : subject :=
  {| subject_node := mk_node nc (lookup_label labels nc);
     topics := map (build_topic labels)
                   (filter (fun c => startswith c nc = true) (detailed_codes labels)) |}.

Definition build_domain (labels : list (text * text)) (bc : text) : domain :=
  {| domain_node := mk_node bc (lookup_label labels bc);
     subjects := map (build_subject labels)
                     (filter (fun c => startswith c bc = true) (narrow_codes labels)) |}.

(** The value of [out["domains"]] that [main] serialises, for the rows read
    from the CSV file. *)
Definition domains (rows : list row) : list domain :=
  let labels := build_labels (items rows) in
  map (build_domain labels) (broad_codes labels).

End Build.

End RebuildIsced.

(** ** The loops of the [main] functions over the files they find

    [os.walk] and [glob.glob] are the library's: the list of files they
    return is the input here. *)

Module Mains.

(** update_nav_classes.py, [main]: the loop that calls
    [update_navigation_classes] on every file and counts the calls that
    returned [True]. *)
Fixpoint update_all (html_files : list string) (updated_files : nat) (fs : store)
  : nat * store :=
  match html_files with
  | [] => (updated_files, fs)
  | file_path :: rest =>
      let r := UpdateNavClasses.update_navigation_classes file_path fs in
      update_all rest (if r.1 then S updated_files else updated_files) r.2
  end.

Definition update_nav_main (html_files : list string) (fs : store) : nat * store :=
  update_all html_files 0 fs.

(** cleanup-html-simple.py, [main]: the loop over the files. *)
Definition cleanup_main (html_files : list string) (fs : store) : store :=
  fold_left (fun fs file_path =>
               CleanupHtmlSimple.clean_html_structure_simple file_path fs)
            html_files fs.

End Mains.

(** ** Notions the properties are stated with *)

Module Spec.

(** Line [i] of [l] satisfies [p] and no line above it does. *)
Definition first_match {A} (p : A -> bool) (l : list A) (i : nat) : Prop :=
  (exists x, l !! i = Some x /\ p x = true) /\
  (forall j y, (j < i)%nat -> l !! j = Some y -> p y = false).

(** The index of the first element that satisfies [p]. *)
Fixpoint first_index {A} (p : A -> bool) (l : list A) : option nat :=
  match l with
  | [] => None
  | x :: l' => if p x then Some O else S <$> first_index p l'
  end.

(** A line as [readlines] gives it when it is not the last one: a body
    without line feed, and the line feed. *)
Definition terminated (l : text) : Prop :=
  exists body, l = body ++ [nl] /\ nl ∉ body.

(** The file at [file_path] is there and the navigation substitutions
    change its content. *)
Definition nav_changes (fs : store) (file_path : string) : bool :=
  match fs !! file_path with
  | Some c => bool_decide (UpdateNavClasses.substitute c <> c)
  | None => false
  end.




(** The order of [sorted] without the equal case, and a list whose
    elements stand in that order from left to right. *)
Definition text_lt (a b : text) : Prop :=
  RebuildIsced.text_leb a b = true /\ a <> b.

Definition ascending (l : list text) : Prop :=
  forall i j a b, l !! i = Some a -> l !! j = Some b -> (i < j)%nat -> text_lt a b.

End Spec.

Import Spec.

(** ** Small documents on which the scripts are run below *)

Module Examples.

(** Two lines that both hold [function B(]. *)
Definition two_candidates : list text :=
  [txt "function B() {}"; txt "function B() { return 1 }"].

Definition two_candidates_src : text :=
  txt "function B() {}" ++ [nl] ++ txt "function B() { return 1 }" ++ [nl].

(** A ToolBar.tsx in which the [ToolButton] marker stands above the
    [Option primitives] marker. *)
Definition toolbar_out_of_order_src : text :=
  txt "function ToolButton<T>() {}" ++ [nl] ++
  txt "// ─── Option primitives" ++ [nl] ++
  txt "// ─── Tool options strip" ++ [nl] ++
  txt "export function ToolBar() {}" ++ [nl].

Definition toolbar_out_of_order : list text :=
  [txt "function ToolButton<T>() {}" ++ [nl];
   txt "// ─── Option primitives" ++ [nl];
   txt "// ─── Tool options strip" ++ [nl];
   txt "export function ToolBar() {}" ++ [nl]].

(** The same four lines in the order the script expects. *)
Definition toolbar_in_order : list text :=
  [txt "// ─── Option primitives" ++ [nl];
   txt "// ─── Tool options strip" ++ [nl];
   txt "function ToolButton<T>() {}" ++ [nl];
   txt "export function ToolBar() {}" ++ [nl]].

(** A canvas-projection.ts of three lines. *)
Definition canvas_lines : list text :=
  [txt "function planLessonBodyLayout() {}" ++ [nl];
   [nl];
   txt "function estimateSessionPages() {}" ++ [nl]].

Definition canvas_src : text :=
  txt "function planLessonBodyLayout() {}" ++ [nl] ++
  [nl] ++
  txt "function estimateSessionPages() {}" ++ [nl].

(** A template-blueprint.tsx with its six markers in the expected order. *)
Definition blueprint_src : text :=
  txt "import React from 'react'" ++ [nl] ++
  txt "interface TemplateBlueprintProps {" ++ [nl] ++
  txt "export interface TemplateAreaMediaItem {" ++ [nl] ++
  txt "function resolveEmbedUrl(url: string): string | null {" ++ [nl] ++
  txt "function SlotSectionLabel({ children }: { children: React.ReactNode }) {" ++ [nl] ++
  txt "function LiveNestedSlot({" ++ [nl] ++
  txt "export function JsonTemplatePreview({" ++ [nl].

Definition blueprint_boundaries : SplitTemplateBlueprint.boundaries :=
  {| SplitTemplateBlueprint.types_start := 2;
     SplitTemplateBlueprint.media_start := 3;
     SplitTemplateBlueprint.slot_views_start := 4;
     SplitTemplateBlueprint.live_start := 5;
     SplitTemplateBlueprint.main_start := 6;
     SplitTemplateBlueprint.props_start := 1 |}.

(** A file that holds none of the markers. *)
Definition no_marker_src : text := txt "const x = 1" ++ [nl].

(** A page whose classes the navigation update leaves as they are. *)
Definition plain_page : text := txt "<p class=" ++ q "lead" ++ txt ">hello</p>" ++ [nl].

(** Rows of the classification file: a broad field, a narrow field and a
    detailed field under it, a narrow field [F099] whose broad field [F09]
    is not in the file, a label seen twice, and a row that is no code. *)
Definition isced_rows : list RebuildIsced.row :=
  [ {| RebuildIsced.Notation_ := Some (txt "F01"); RebuildIsced.Label_ := Some (txt "Education") |};
    {| RebuildIsced.Notation_ := Some (txt "F011"); RebuildIsced.Label_ := Some (txt "Education") |};
    {| RebuildIsced.Notation_ := Some (txt " F0111 "); RebuildIsced.Label_ := Some (txt "Education science") |};
    {| RebuildIsced.Notation_ := Some (txt "F099"); RebuildIsced.Label_ := Some (txt "Orphan") |};
    {| RebuildIsced.Notation_ := Some (txt "F01"); RebuildIsced.Label_ := Some (txt "Education again") |};
    {| RebuildIsced.Notation_ := Some (txt "F01x"); RebuildIsced.Label_ := None |} ].

(** An empty wrapper inside an empty wrapper, and a page with nothing for
    the cleanup to remove. *)
Definition nested_empty_divs : text := txt "<div><div></div></div>".

Definition tidy_page : text :=
  txt "<ul>" ++ [nl] ++ txt "<li>one</li>" ++ [nl] ++ txt "</ul>".


End Examples.

(** * Properties *)

(** ** Lists and slices *)

Section Lists.

Context {A : Type}.
Implicit Types l : list A.

Lemma first_index_Some (p : A -> bool) l i :
  first_index p l = Some i <-> first_match p l i.
Proof.
  revert i. induction l as [|x l IH]; intros i; simpl.
  - split; [discriminate|]. intros [[y [Hy _]] _]. discriminate.
  - destruct (p x) eqn:Hpx.
    + split.
      * intros [= <-]. split; [eauto|]. intros j y Hj. lia.
      * intros [[y [Hy Hpy]] Hmin]. destruct i as [|i]; [done|].
        specialize (Hmin O x ltac:(lia) eq_refl). congruence.
    + rewrite fmap_Some. split.
      * intros (k & Hk & ->). apply IH in Hk as [[y [Hy Hpy]] Hmin].
        split; [eauto|]. intros [|j] z Hj Hz; simpl in Hz; [congruence|].
        apply (Hmin j); [lia|done].
      * intros [[y [Hy Hpy]] Hmin]. destruct i as [|i]; simpl in Hy; [congruence|].
        exists i. split; [|done]. apply IH. split; [eauto|].
        intros j z Hj Hz. apply (Hmin (S j)); [lia|done].
Qed.

Lemma first_index_None (p : A -> bool) l :
  first_index p l = None <-> forall x, x ∈ l -> p x = false.
Proof.
  induction l as [|x l IH]; simpl.
  - split; [|done]. intros _ x Hx. by apply elem_of_nil in Hx.
  - destruct (p x) eqn:Hpx.
    + split; [discriminate|]. intros H. rewrite H in Hpx; [done|]. left.
    + rewrite fmap_None, IH. split.
      * intros H y Hy. apply elem_of_cons in Hy as [->|Hy]; [done|]. by apply H.
      * intros H y Hy. apply H. by right.
Qed.

Lemma first_index_lt (p : A -> bool) l i :
  first_index p l = Some i -> (i < length l)%nat.
Proof.
  intros [[x [Hx _]] _]%first_index_Some. by apply lookup_lt_Some in Hx.
Qed.

(** [l[a:b] + l[b:]] is [l[a:]] when [a <= b]. *)
Lemma slice_app_drop l (a b : nat) :
  (a <= b)%nat -> slice l a b ++ drop b l = drop a l.
Proof.
  intros Hab. unfold slice.
  rewrite <- (take_drop b l) at 3.
  destruct (decide (b <= length l)%nat) as [Hb|Hb].
  - rewrite drop_app_le; [done|]. rewrite length_take. lia.
  - rewrite (drop_ge l b) by lia. rewrite !app_nil_r. done.
Qed.

Lemma slice_0 l (b : nat) : slice l 0 b = take b l.
Proof. done. Qed.

End Lists.

(** ** The three search loops find the first match *)

Section Locate.

Lemma blueprint_find_line_from (i : nat) (pattern : text) (ls : list text) :
  SplitTemplateBlueprint.find_line_from i pattern ls
  = (fun k => (i + k)%nat) <$> first_index (contains pattern) ls.
Proof.
  revert i. induction ls as [|line rest IH]; intros i; simpl; [done|].
  destruct (contains pattern line).
  - simpl. f_equal. lia.
  - rewrite IH. destruct (first_index (contains pattern) rest); simpl; [|done].
    f_equal. lia.
Qed.

Lemma blueprint_find_line_index (pattern src : text) (i : nat) :
  SplitTemplateBlueprint.find_line pattern src = Ok i
  <-> first_index (contains pattern) (splitlines false src) = Some i.
Proof.
  unfold SplitTemplateBlueprint.find_line. rewrite blueprint_find_line_from.
  destruct (first_index _ _) as [k|]; simpl.
  - split; intros [= <-]; done.
  - split; discriminate.
Qed.

Lemma canvas_boundary_from (i : nat) (ls : list text) :
  SplitCanvasProjection.boundary_from i ls
  = (fun k => (i + k)%nat) <$> first_index SplitCanvasProjection.is_boundary ls.
Proof.
  revert i. induction ls as [|line rest IH]; intros i; simpl; [done|].
  destruct (SplitCanvasProjection.is_boundary line).
  - simpl. f_equal. lia.
  - rewrite IH. destruct (first_index _ rest); simpl; [|done]. f_equal. lia.
Qed.

Lemma canvas_boundary_line_index (ls : list text) :
  SplitCanvasProjection.boundary_line ls
  = first_index SplitCanvasProjection.is_boundary ls.
Proof.
  unfold SplitCanvasProjection.boundary_line. rewrite canvas_boundary_from.
  by destruct (first_index _ _).
Qed.

Lemma toolbar_find_line_from (i : Z) (ls : list text) (t : text) :
  SplitToolbar.find_line_from i ls t
  = match first_index (contains t) ls with
    | Some k => i + Z.of_nat k
    | None => -1
    end.
Proof.
  revert i. induction ls as [|line rest IH]; intros i; simpl; [done|].
  destruct (contains t line); simpl; [lia|].
  rewrite IH. destruct (first_index _ rest); simpl; lia.
Qed.

Lemma toolbar_find_line_index (ls : list text) (t : text) :
  SplitToolbar.find_line ls t
  = match first_index (contains t) ls with
    | Some k => Z.of_nat k
    | None => -1
    end.
Proof.
  unfold SplitToolbar.find_line. rewrite toolbar_find_line_from.
  by destruct (first_index _ _).
Qed.

(** A marker that was found has an index inside the document. *)
Lemma toolbar_find_line_range (ls : list text) (t : text) :
  SplitToolbar.find_line ls t <> -1 ->
  0 <= SplitToolbar.find_line ls t < Z.of_nat (length ls).
Proof.
  rewrite toolbar_find_line_index.
  destruct (first_index _ _) as [k|] eqn:Hk; [|done].
  intros _. apply first_index_lt in Hk. lia.
Qed.

End Locate.

(** C7. First-match location: the search of each splitter returns an index
    [i] exactly when line [i] is the first line, counted from the top of
    the document, that satisfies the marker's predicate.  This holds for
    [find_line] of split-template-blueprint.py, for the loop that sets
    [boundary_line] in split-canvas-projection.py and for [find_line] of
    split-toolbar.py. *)
Theorem locate_first_match (pattern src : text) (lines : list text) (i : nat) :
  (SplitTemplateBlueprint.find_line pattern src = Ok i
   <-> first_match (contains pattern) (splitlines false src) i)
  /\ (SplitCanvasProjection.boundary_line lines = Some i
      <-> first_match SplitCanvasProjection.is_boundary lines i)
  /\ (SplitToolbar.find_line lines pattern = Z.of_nat i
      <-> first_match (contains pattern) lines i).
Proof.
  split; [|split].
  - rewrite blueprint_find_line_index. apply first_index_Some.
  - rewrite canvas_boundary_line_index. apply first_index_Some.
  - rewrite toolbar_find_line_index, <- first_index_Some.
    destruct (first_index _ _) as [k|].
    + split; [intros H; f_equal; lia|intros [= ->]; done].
    + split; [lia|discriminate].
Qed.

(** C2, as the specification states it, fails: both lines of the document
    hold the marker, and each [find_line] returns the first of them; no
    exception is raised and no error value returned. *)
Lemma ambiguous_boundary_counterexample :
  splitlines false Examples.two_candidates_src = Examples.two_candidates
  /\ Forall (fun line => contains (txt "function B(") line = true)
            Examples.two_candidates
  /\ SplitTemplateBlueprint.find_line (txt "function B(") Examples.two_candidates_src
     = Ok 0%nat
  /\ SplitToolbar.find_line (readlines Examples.two_candidates_src) (txt "function B(")
     = 0.
Proof.
  split; [vm_compute; reflexivity|].
  split; [repeat constructor|].
  split; vm_compute; reflexivity.
Qed.

(** C2, amended.  When two lines [i < j] of a document both satisfy a
    marker, locating the marker succeeds and returns the first line that
    satisfies it, an index [k <= i]: [find_line] makes no uniqueness check
    and raises no ambiguity error. *)
Theorem ambiguous_boundary_first_wins (pattern : text) (ls : list text)
    (i j : nat) (li lj : text) :
  (i < j)%nat ->
  ls !! i = Some li -> contains pattern li = true ->
  ls !! j = Some lj -> contains pattern lj = true ->
  exists k : nat,
    (k <= i)%nat
    /\ first_match (contains pattern) ls k
    /\ SplitToolbar.find_line ls pattern = Z.of_nat k
    /\ (forall src, splitlines false src = ls ->
          SplitTemplateBlueprint.find_line pattern src = Ok k).
Proof.
  intros Hij Hi Hpi Hj Hpj.
  destruct (first_index (contains pattern) ls) as [k|] eqn:Hk.
  - exists k. pose proof Hk as [Hex Hmin]%first_index_Some.
    split; [|split; [by split|split]].
    + destruct (decide (k <= i)%nat) as [|Hgt]; [done|].
      rewrite (Hmin i li) in Hpi; [done|lia|done].
    + by rewrite toolbar_find_line_index, Hk.
    + intros src <-. by apply blueprint_find_line_index.
  - exfalso. rewrite first_index_None in Hk.
    rewrite (Hk li) in Hpi; [done|]. by eapply list_elem_of_lookup_2.
Qed.

Lemma ambiguous_boundary_first_wins_witness :
  exists k : nat,
    (k <= 0)%nat
    /\ first_match (contains (txt "function B(")) Examples.two_candidates k
    /\ SplitToolbar.find_line Examples.two_candidates (txt "function B(") = Z.of_nat k
    /\ (forall src, splitlines false src = Examples.two_candidates ->
          SplitTemplateBlueprint.find_line (txt "function B(") src = Ok k).
Proof.
  apply (ambiguous_boundary_first_wins (txt "function B(") Examples.two_candidates
           0 1 (txt "function B() {}") (txt "function B() { return 1 }")).
  - lia.
  - reflexivity.
  - reflexivity.
  - reflexivity.
  - reflexivity.
Defined.

(** ** Lines and their concatenation *)

Section Lines.

Lemma readlines_concat (s : text) : concat (readlines s) = s.
Proof.
  induction s as [|c s IH]; simpl; [done|].
  destruct (Ascii.eqb c nl); simpl; [by rewrite IH|].
  destruct (readlines s) as [|l ls]; simpl in *; by rewrite <- IH.
Qed.

Lemma splitlines_keepends_concat_le (n : nat) (s : text) :
  (length s <= n)%nat -> concat (splitlines true s) = s.
Proof.
  revert s. induction n as [|n IH]; intros s Hn.
  - destruct s; [done|simpl in Hn; lia].
  - destruct s as [|c s]; [done|]. simpl in Hn. simpl.
    destruct (Ascii.eqb c cr).
    + destruct s as [|d s]; [done|]. simpl in Hn.
      destruct (Ascii.eqb d nl); simpl.
      * rewrite IH; [done|lia].
      * f_equal. apply (IH (d :: s)). simpl. lia.
    + destruct (is_linebreak c); simpl.
      * f_equal. apply IH. lia.
      * pose proof (IH s ltac:(lia)) as Hs.
        destruct (splitlines true s) as [|l ls]; simpl in *; by rewrite <- Hs.
Qed.

(** ["".join(src.splitlines(keepends=True)) == src] *)
Lemma splitlines_keepends_concat (s : text) : concat (splitlines true s) = s.
Proof. by apply (splitlines_keepends_concat_le (length s)). Qed.

End Lines.

(** ** The cuts of the three splitters *)

Section Partition.

Import SplitToolbar SplitCanvasProjection SplitTemplateBlueprint.

(** split-toolbar.py: the three slices put the lines back together when the
    two boundaries it cuts at stand in document order. *)
Lemma toolbar_partition_total (lines : list text) :
  boundary_missing lines = false ->
  opt_primitives_start lines <= tool_button_start lines ->
  kept_start lines ++ options_lines lines ++ kept_end lines = lines.
Proof.
  intros _ Hord. unfold kept_start, options_lines, kept_end.
  rewrite slice_app_drop by lia. apply take_drop.
Qed.

(** split-canvas-projection.py: the two slices at the boundary. *)
Lemma canvas_partition_total (lines : list text) (b : nat) :
  projection_raw lines b ++ projector_lines lines b = lines.
Proof. apply take_drop. Qed.

(** split-template-blueprint.py: the seven blocks, in document order. *)
Lemma blueprint_partition_total (src : text) (b : boundaries) :
  (props_start b <= types_start b)%nat ->
  (types_start b <= media_start b)%nat ->
  (media_start b <= slot_views_start b)%nat ->
  (slot_views_start b <= live_start b)%nat ->
  (live_start b <= main_start b)%nat ->
  original_imports src b ++ props_block src b ++ types_block src b
    ++ media_block src b ++ slot_views_block src b ++ live_block src b
    ++ main_block src b = src.
Proof.
  intros H1 H2 H3 H4 H5.
  unfold original_imports, props_block, types_block, media_block,
    slot_views_block, live_block, main_block, extract_lines, join_empty.
  rewrite <- !concat_app.
  assert (Hmain : slice (all_lines src) (main_start b) (length (all_lines src))
                  = drop (main_start b) (all_lines src)).
  { unfold slice. by rewrite take_ge. }
  rewrite Hmain.
  rewrite (slice_app_drop _ (live_start b)) by done.
  rewrite (slice_app_drop _ (slot_views_start b)) by done.
  rewrite (slice_app_drop _ (media_start b)) by done.
  rewrite (slice_app_drop _ (types_start b)) by done.
  rewrite (slice_app_drop _ (props_start b)) by done.
  rewrite (slice_app_drop _ 0%nat) by lia.
  apply splitlines_keepends_concat.
Qed.

End Partition.

(** The text split-canvas-projection.py writes is not the text it cut: with
    no blank line above the boundary, the first file gains a line feed. *)
Example canvas_written_text_differs :
  SplitCanvasProjection.boundary_line [txt "a" ++ [nl]; txt "function estimateSessionPages"]
  = Some 1%nat
  /\ SplitCanvasProjection.projection_lines
       [txt "a" ++ [nl]; txt "function estimateSessionPages"] 1
     = [txt "a" ++ [nl]; [nl]].
Proof. split; vm_compute; reflexivity. Qed.

(** C1, as the specification states it, fails.  All four markers of
    split-toolbar.py are found in the document, the [ToolButton] marker
    above the [Option primitives] marker; the slice between them is empty
    and the two kept slices overlap, so the three slices together hold five
    lines where the document holds four. *)
Lemma partition_totality_counterexample :
  readlines Examples.toolbar_out_of_order_src = Examples.toolbar_out_of_order
  /\ SplitToolbar.boundary_missing Examples.toolbar_out_of_order = false
  /\ SplitToolbar.opt_primitives_start Examples.toolbar_out_of_order = 1
  /\ SplitToolbar.tool_button_start Examples.toolbar_out_of_order = 0
  /\ SplitToolbar.kept_start Examples.toolbar_out_of_order
       ++ SplitToolbar.options_lines Examples.toolbar_out_of_order
       ++ SplitToolbar.kept_end Examples.toolbar_out_of_order
     = (txt "function ToolButton<T>() {}" ++ [nl]) :: Examples.toolbar_out_of_order
  /\ join_empty (SplitToolbar.kept_start Examples.toolbar_out_of_order
                 ++ SplitToolbar.options_lines Examples.toolbar_out_of_order
                 ++ SplitToolbar.kept_end Examples.toolbar_out_of_order)
     <> join_empty Examples.toolbar_out_of_order.
Proof.
  repeat split; try (vm_compute; reflexivity).
  intros H. apply (f_equal length) in H. vm_compute in H. discriminate.
Qed.

(** C1, amended.  When the located boundaries stand in document order, the
    slices a splitter cuts put the document back together: the three slices
    of split-toolbar.py, the two slices of split-canvas-projection.py (which
    has one boundary, so nothing to order) and the seven blocks of
    split-template-blueprint.py each concatenate to the text that was read.
    The property is about the slices as cut; the text written later (with
    trailing blank lines removed, a comment cut off, headers added) is not
    covered. *)
Theorem partition_totality_in_order (tb cp : list text) (b : nat) (src : text)
    (bs : SplitTemplateBlueprint.boundaries) :
  SplitToolbar.boundary_missing tb = false ->
  SplitToolbar.opt_primitives_start tb <= SplitToolbar.tool_button_start tb ->
  SplitCanvasProjection.boundary_line cp = Some b ->
  SplitTemplateBlueprint.locate src = Ok bs ->
  (SplitTemplateBlueprint.props_start bs <= SplitTemplateBlueprint.types_start bs
   /\ SplitTemplateBlueprint.types_start bs <= SplitTemplateBlueprint.media_start bs
   /\ SplitTemplateBlueprint.media_start bs <= SplitTemplateBlueprint.slot_views_start bs
   /\ SplitTemplateBlueprint.slot_views_start bs <= SplitTemplateBlueprint.live_start bs
   /\ SplitTemplateBlueprint.live_start bs <= SplitTemplateBlueprint.main_start bs)%nat ->
  join_empty (SplitToolbar.kept_start tb ++ SplitToolbar.options_lines tb
              ++ SplitToolbar.kept_end tb) = join_empty tb
  /\ join_empty (SplitCanvasProjection.projection_raw cp b
                 ++ SplitCanvasProjection.projector_lines cp b) = join_empty cp
  /\ SplitTemplateBlueprint.original_imports src bs
       ++ SplitTemplateBlueprint.props_block src bs
       ++ SplitTemplateBlueprint.types_block src bs
       ++ SplitTemplateBlueprint.media_block src bs
       ++ SplitTemplateBlueprint.slot_views_block src bs
       ++ SplitTemplateBlueprint.live_block src bs
       ++ SplitTemplateBlueprint.main_block src bs = src.
Proof.
  intros Hfound Hord _ _ (H1 & H2 & H3 & H4 & H5).
  split; [|split].
  - by rewrite toolbar_partition_total.
  - by rewrite canvas_partition_total.
  - by apply blueprint_partition_total.
Qed.

Lemma partition_totality_in_order_witness :
  join_empty (SplitToolbar.kept_start Examples.toolbar_in_order
              ++ SplitToolbar.options_lines Examples.toolbar_in_order
              ++ SplitToolbar.kept_end Examples.toolbar_in_order)
  = join_empty Examples.toolbar_in_order
  /\ join_empty (SplitCanvasProjection.projection_raw Examples.canvas_lines 2
                 ++ SplitCanvasProjection.projector_lines Examples.canvas_lines 2)
     = join_empty Examples.canvas_lines
  /\ SplitTemplateBlueprint.original_imports Examples.blueprint_src Examples.blueprint_boundaries
       ++ SplitTemplateBlueprint.props_block Examples.blueprint_src Examples.blueprint_boundaries
       ++ SplitTemplateBlueprint.types_block Examples.blueprint_src Examples.blueprint_boundaries
       ++ SplitTemplateBlueprint.media_block Examples.blueprint_src Examples.blueprint_boundaries
       ++ SplitTemplateBlueprint.slot_views_block Examples.blueprint_src Examples.blueprint_boundaries
       ++ SplitTemplateBlueprint.live_block Examples.blueprint_src Examples.blueprint_boundaries
       ++ SplitTemplateBlueprint.main_block Examples.blueprint_src Examples.blueprint_boundaries
     = Examples.blueprint_src.
Proof.
  apply (partition_totality_in_order Examples.toolbar_in_order Examples.canvas_lines 2
           Examples.blueprint_src Examples.blueprint_boundaries).
  - vm_compute; reflexivity.
  - vm_compute; discriminate.
  - vm_compute; reflexivity.
  - vm_compute; reflexivity.
  - simpl; lia.
Defined.

(** ** What split-canvas-projection.py writes to the first file *)

Section CanvasLines.

Import SplitCanvasProjection.

Lemma elem_of_drop_while {A} (p : A -> bool) (x : A) (l : list A) :
  x ∈ drop_while p l -> x ∈ l.
Proof.
  induction l as [|y l IH]; simpl; [done|].
  destruct (p y); [|done]. intros H. right. by apply IH.
Qed.


Lemma drop_while_drop {A} (p : A -> bool) (l : list A) :
  exists j, (j <= length l)%nat /\ drop_while p l = drop j l.
Proof.
  induction l as [|x l (j & Hj & IH)]; simpl.
  - by exists 0%nat.
  - destruct (p x).
    + exists (S j). split; [lia|done].
    + exists 0%nat. split; [lia|done].
Qed.

(** The loop that pops trailing blank lines leaves a prefix of the list. *)
Lemma pop_trailing_blank_take (l : list text) :
  exists k, (k <= length l)%nat /\ pop_trailing_blank l = take k l.
Proof.
  unfold pop_trailing_blank.
  destruct (drop_while_drop is_blank (rev l)) as (j & Hj & ->).
  exists (length l - j)%nat. split; [lia|].
  by rewrite skipn_rev, rev_involutive.
Qed.

(** What is written to the first file: the first [k <= b] lines of the
    document and one line feed. *)
Lemma projection_lines_prefix (lines : list text) (b : nat) :
  exists k, (k <= b)%nat /\ projection_lines lines b = take k lines ++ [[nl]].
Proof.
  unfold projection_lines, projection_raw.
  destruct (pop_trailing_blank_take (take b lines)) as (k & Hk & ->).
  rewrite length_take in Hk. exists k. split; [lia|].
  rewrite take_take. by replace (k `min` b)%nat with k by lia.
Qed.

End CanvasLines.



(** ** Runs that find no boundary *)

Section MissingBoundary.

Lemma toolbar_find_line_missing (ls : list text) (t : text) :
  (forall line, line ∈ ls -> contains t line = false) ->
  SplitToolbar.find_line ls t = -1.
Proof.
  intros H. rewrite toolbar_find_line_index.
  by apply first_index_None in H as ->.
Qed.

Lemma blueprint_find_line_missing (pattern src : text) :
  (forall line, line ∈ splitlines false src -> contains pattern line = false) ->
  SplitTemplateBlueprint.find_line pattern src = Raise (ValueError pattern).
Proof.
  intros H. unfold SplitTemplateBlueprint.find_line.
  rewrite blueprint_find_line_from.
  by apply first_index_None in H as ->.
Qed.

(** [find_line] raises nothing but [ValueError]. *)
Lemma blueprint_find_line_cases (pattern src : text) :
  (exists i, SplitTemplateBlueprint.find_line pattern src = Ok i)
  \/ SplitTemplateBlueprint.find_line pattern src = Raise (ValueError pattern).
Proof.
  unfold SplitTemplateBlueprint.find_line.
  destruct (SplitTemplateBlueprint.find_line_from _ _ _); eauto.
Qed.

(** split-template-blueprint.py: when one of the six markers is in no line,
    [locate] raises. *)
Lemma blueprint_locate_missing (src marker : text) :
  marker ∈ [SplitTemplateBlueprint.types_marker; SplitTemplateBlueprint.media_marker;
            SplitTemplateBlueprint.slot_views_marker; SplitTemplateBlueprint.live_marker;
            SplitTemplateBlueprint.main_marker; SplitTemplateBlueprint.props_marker] ->
  (forall line, line ∈ splitlines false src -> contains marker line = false) ->
  exists m, SplitTemplateBlueprint.locate src = Raise (ValueError m).
Proof.
  intros Hin Hmiss. apply blueprint_find_line_missing in Hmiss.
  unfold SplitTemplateBlueprint.locate.
  destruct (blueprint_find_line_cases SplitTemplateBlueprint.types_marker src)
    as [[? H0]|H0]; rewrite H0; simpl; [|eauto].
  destruct (blueprint_find_line_cases SplitTemplateBlueprint.media_marker src)
    as [[? H1]|H1]; rewrite H1; simpl; [|eauto].
  destruct (blueprint_find_line_cases SplitTemplateBlueprint.slot_views_marker src)
    as [[? H2]|H2]; rewrite H2; simpl; [|eauto].
  destruct (blueprint_find_line_cases SplitTemplateBlueprint.live_marker src)
    as [[? H3]|H3]; rewrite H3; simpl; [|eauto].
  destruct (blueprint_find_line_cases SplitTemplateBlueprint.main_marker src)
    as [[? H4]|H4]; rewrite H4; simpl; [|eauto].
  destruct (blueprint_find_line_cases SplitTemplateBlueprint.props_marker src)
    as [[? H5]|H5]; rewrite H5; simpl; [|eauto].
  exfalso. repeat (apply elem_of_cons in Hin as [->|Hin]; [congruence|]).
  by apply elem_of_nil in Hin.
Qed.

End MissingBoundary.

(** C3.  Missing-boundary atomicity.  When a marker the script requires is
    in no line of the document, the run ends with process result 1 and the
    files are what they were: split-canvas-projection.py and
    split-toolbar.py call [sys.exit(1)] before their first write,
    update-route.py does so for its import anchor and for its block
    pattern, and split-template-blueprint.py lets the [ValueError] of
    [find_line] escape before its first write. *)
Theorem missing_boundary_aborts_before_write (fs : store) (content : text) :
  (fs !! SplitCanvasProjection.path = Some content ->
   (forall line, line ∈ readlines content ->
      SplitCanvasProjection.is_boundary line = false) ->
   SplitCanvasProjection.run fs = (Exit 1, fs))
  /\ (fs !! SplitToolbar.toolbar_path = Some content ->
      (exists marker,
         marker ∈ [SplitToolbar.opt_primitives_marker; SplitToolbar.opts_strip_marker;
                   SplitToolbar.tool_button_marker; SplitToolbar.toolbar_marker]
         /\ forall line, line ∈ readlines content -> contains marker line = false) ->
      SplitToolbar.run fs = (Exit 1, fs))
  /\ (fs !! UpdateRoute.path = Some content ->
      contains UpdateRoute.old_anchor content = false
      \/ UpdateRoute.search_block
           (replace1 content UpdateRoute.old_anchor
              (UpdateRoute.old_anchor ++ UpdateRoute.new_imports)) = None ->
      UpdateRoute.run fs = (Exit 1, fs))
  /\ (fs !! SplitTemplateBlueprint.MAIN = Some content ->
      (exists marker,
         marker ∈ [SplitTemplateBlueprint.types_marker; SplitTemplateBlueprint.media_marker;
                   SplitTemplateBlueprint.slot_views_marker;
                   SplitTemplateBlueprint.live_marker; SplitTemplateBlueprint.main_marker;
                   SplitTemplateBlueprint.props_marker]
         /\ forall line, line ∈ splitlines false content -> contains marker line = false) ->
      exists m, SplitTemplateBlueprint.run fs = (Raised (ValueError m), fs)
                /\ exit_code (Raised (ValueError m)) = 1).
Proof.
  repeat split.
  - intros Hfile Hmiss. unfold SplitCanvasProjection.run. rewrite Hfile.
    rewrite canvas_boundary_line_index.
    by apply first_index_None in Hmiss as ->.
  - intros Hfile (marker & Hin & Hmiss). unfold SplitToolbar.run. rewrite Hfile.
    apply toolbar_find_line_missing in Hmiss.
    assert (SplitToolbar.boundary_missing (readlines content) = true) as ->; [|done].
    unfold SplitToolbar.boundary_missing, SplitToolbar.opt_primitives_start,
      SplitToolbar.opts_strip_comment_start, SplitToolbar.tool_button_start,
      SplitToolbar.toolbar_start.
    simpl. repeat (apply elem_of_cons in Hin as [->|Hin];
                   [rewrite Hmiss; simpl; by rewrite ?orb_true_r|]).
    by apply elem_of_nil in Hin.
  - intros Hfile Hmiss. unfold UpdateRoute.run. rewrite Hfile. cbv zeta.
    destruct Hmiss as [Hm|Hm].
    + by rewrite Hm.
    + destruct (contains UpdateRoute.old_anchor content); [|done].
      cbn [negb]. by rewrite Hm.
  - intros Hfile (marker & Hin & Hmiss).
    destruct (blueprint_locate_missing content marker Hin Hmiss) as [m Hm].
    exists m. unfold SplitTemplateBlueprint.run. by rewrite Hfile, Hm.
Qed.

Lemma missing_boundary_aborts_before_write_witness :
  SplitCanvasProjection.run {[SplitCanvasProjection.path := Examples.no_marker_src]}
  = (Exit 1, {[SplitCanvasProjection.path := Examples.no_marker_src]})
  /\ SplitToolbar.run {[SplitToolbar.toolbar_path := Examples.no_marker_src]}
     = (Exit 1, {[SplitToolbar.toolbar_path := Examples.no_marker_src]})
  /\ UpdateRoute.run {[UpdateRoute.path := Examples.no_marker_src]}
     = (Exit 1, {[UpdateRoute.path := Examples.no_marker_src]})
  /\ exists m,
       SplitTemplateBlueprint.run {[SplitTemplateBlueprint.MAIN := Examples.no_marker_src]}
       = (Raised (ValueError m), {[SplitTemplateBlueprint.MAIN := Examples.no_marker_src]})
       /\ exit_code (Raised (ValueError m)) = 1.
Proof.
  split; [|split; [|split]].
  - destruct (missing_boundary_aborts_before_write
                {[SplitCanvasProjection.path := Examples.no_marker_src]}
                Examples.no_marker_src) as (Hcanvas & _).
    apply Hcanvas; [apply lookup_singleton_eq|].
    intros line Hline. apply list_elem_of_singleton in Hline as ->. reflexivity.
  - destruct (missing_boundary_aborts_before_write
                {[SplitToolbar.toolbar_path := Examples.no_marker_src]}
                Examples.no_marker_src) as (_ & Htoolbar & _).
    apply Htoolbar; [apply lookup_singleton_eq|].
    exists SplitToolbar.opt_primitives_marker. split; [left|].
    intros line Hline. apply list_elem_of_singleton in Hline as ->. reflexivity.
  - destruct (missing_boundary_aborts_before_write
                {[UpdateRoute.path := Examples.no_marker_src]}
                Examples.no_marker_src) as (_ & _ & Hroute & _).
    apply Hroute; [apply lookup_singleton_eq|]. left. reflexivity.
  - destruct (missing_boundary_aborts_before_write
                {[SplitTemplateBlueprint.MAIN := Examples.no_marker_src]}
                Examples.no_marker_src) as (_ & _ & _ & Hblueprint).
    apply Hblueprint; [apply lookup_singleton_eq|].
    exists SplitTemplateBlueprint.types_marker. split; [left|].
    intros line Hline. vm_compute in Hline.
    apply list_elem_of_singleton in Hline as ->. reflexivity.
Defined.

(** ** Writing the same contents again *)

Section Emit.

Lemma write_file_lookup (p k : string) (c : text) (fs : store) :
  write_file p c fs !! k = if decide (p = k) then Some c else fs !! k.
Proof. unfold write_file. apply lookup_insert. Qed.

Lemma canvas_emit_idempotent (pl pc : list text) (fs : store) :
  SplitCanvasProjection.emit pl pc (SplitCanvasProjection.emit pl pc fs)
  = SplitCanvasProjection.emit pl pc fs.
Proof.
  apply map_eq. intros k. unfold SplitCanvasProjection.emit.
  rewrite !write_file_lookup. repeat case_decide; done.
Qed.

Lemma toolbar_emit_idempotent (tc oc : text) (fs : store) :
  SplitToolbar.emit tc oc (SplitToolbar.emit tc oc fs) = SplitToolbar.emit tc oc fs.
Proof.
  apply map_eq. intros k. unfold SplitToolbar.emit.
  rewrite !write_file_lookup. repeat case_decide; done.
Qed.

Lemma blueprint_emit_idempotent (src : text) (b : SplitTemplateBlueprint.boundaries)
    (fs : store) :
  SplitTemplateBlueprint.emit src b (SplitTemplateBlueprint.emit src b fs)
  = SplitTemplateBlueprint.emit src b fs.
Proof.
  apply map_eq. intros k. unfold SplitTemplateBlueprint.emit.
  rewrite !write_file_lookup. repeat case_decide; done.
Qed.

Lemma nav_write_back_idempotent (file_path : string) (original content : text)
    (fs : store) :
  UpdateNavClasses.write_back file_path original content
    (UpdateNavClasses.write_back file_path original content fs).2
  = UpdateNavClasses.write_back file_path original content fs.
Proof.
  unfold UpdateNavClasses.write_back. case_bool_decide; simpl; [|done].
  f_equal. unfold write_file. apply insert_insert_eq.
Qed.

End Emit.

(** C8.  Idempotent emission: writing the same contents to the same
    destinations a second time leaves every file as the first run left it.
    This holds for the writes of split-canvas-projection.py,
    split-toolbar.py and split-template-blueprint.py and for the
    conditional write of update_nav_classes.py, also when the second run
    compares the content with what the first run wrote; after the first
    run of the canvas split each destination holds the content it was
    given. *)
Theorem emission_idempotent (fs : store) (projection_lines projector_content : list text)
    (new_toolbar_content options_content : text) (src : text)
    (b : SplitTemplateBlueprint.boundaries) (file_path : string)
    (original_content content : text) :
  SplitCanvasProjection.emit projection_lines projector_content
    (SplitCanvasProjection.emit projection_lines projector_content fs)
  = SplitCanvasProjection.emit projection_lines projector_content fs
  /\ SplitCanvasProjection.emit projection_lines projector_content fs
       !! SplitCanvasProjection.path = Some (join_empty projection_lines)
  /\ SplitCanvasProjection.emit projection_lines projector_content fs
       !! SplitCanvasProjection.projector_path = Some (join_empty projector_content)
  /\ SplitToolbar.emit new_toolbar_content options_content
       (SplitToolbar.emit new_toolbar_content options_content fs)
     = SplitToolbar.emit new_toolbar_content options_content fs
  /\ SplitTemplateBlueprint.emit src b (SplitTemplateBlueprint.emit src b fs)
     = SplitTemplateBlueprint.emit src b fs
  /\ UpdateNavClasses.write_back file_path original_content content
       (UpdateNavClasses.write_back file_path original_content content fs).2
     = UpdateNavClasses.write_back file_path original_content content fs
  /\ (UpdateNavClasses.write_back file_path content content
        (UpdateNavClasses.write_back file_path original_content content fs).2).2
     = (UpdateNavClasses.write_back file_path original_content content fs).2.
Proof.
  split; [apply canvas_emit_idempotent|].
  split; [unfold SplitCanvasProjection.emit;
          rewrite !write_file_lookup; by repeat case_decide|].
  split; [unfold SplitCanvasProjection.emit;
          rewrite !write_file_lookup; by repeat case_decide|].
  split; [apply toolbar_emit_idempotent|].
  split; [apply blueprint_emit_idempotent|].
  split; [apply nav_write_back_idempotent|].
  unfold UpdateNavClasses.write_back at 1. by case_bool_decide.
Qed.

(** C9.  The navigation update writes a file back only when the
    substitutions change its content: when they leave the content as it
    is, the files are untouched and the function returns [False]; when
    they change it, the new content is written and the function returns
    [True]. *)
Theorem nav_update_writes_only_changes (file_path : string) (fs : store)
    (original_content : text) :
  fs !! file_path = Some original_content ->
  (UpdateNavClasses.substitute original_content = original_content ->
   UpdateNavClasses.update_navigation_classes file_path fs = (false, fs))
  /\ (UpdateNavClasses.substitute original_content <> original_content ->
      UpdateNavClasses.update_navigation_classes file_path fs
      = (true, <[file_path := UpdateNavClasses.substitute original_content]> fs)).
Proof.
  intros Hfile. unfold UpdateNavClasses.update_navigation_classes.
  rewrite Hfile. unfold UpdateNavClasses.write_back.
  split; intros H; case_bool_decide; done.
Qed.

Lemma nav_update_writes_only_changes_witness :
  UpdateNavClasses.update_navigation_classes "index.html"
    {["index.html"%string := Examples.plain_page]}
  = (false, {["index.html"%string := Examples.plain_page]}).
Proof.
  apply (nav_update_writes_only_changes "index.html"
           {["index.html"%string := Examples.plain_page]} Examples.plain_page).
  - apply lookup_singleton_eq.
  - vm_compute; reflexivity.
Defined.

(** ** The classification tree *)

Section Isced.

Import RebuildIsced.

Lemma startswith_take (s p : text) :
  startswith s p = true -> take (length p) s = p.
Proof.
  revert s. induction p as [|c p IH]; intros s H; [reflexivity|].
  destruct s as [|d s]; simpl in H; [discriminate H|].
  destruct (andb_prop _ _ H) as [Hc Hp]. apply Ascii.eqb_eq in Hc as ->.
  simpl. f_equal. by apply IH.
Qed.

Lemma insert_sorted_elem_of (x y : text) (l : list text) :
  y ∈ insert_sorted x l <-> y = x \/ y ∈ l.
Proof.
  induction l as [|z l IH]; simpl.
  - rewrite list_elem_of_singleton, elem_of_nil. tauto.
  - destruct (text_leb x z).
    + by rewrite elem_of_cons.
    + rewrite !elem_of_cons, IH. tauto.
Qed.

Lemma sorted_elem_of (x : text) (l : list text) : x ∈ sorted l <-> x ∈ l.
Proof.
  induction l as [|y l IH]; simpl; [done|].
  rewrite insert_sorted_elem_of, elem_of_cons, IH. done.
Qed.

Lemma has_key_true (labels : list (text * text)) (c : text) :
  has_key labels c = true <-> c ∈ keys labels.
Proof.
  unfold has_key, keys. rewrite existsb_exists, list_elem_of_In, in_map_iff.
  split.
  - intros (kv & Hin & Hk). apply bool_decide_eq_true in Hk. eauto.
  - intros (kv & Hk & Hin). exists kv. split; [done|]. by apply bool_decide_eq_true.
Qed.

Lemma setdefault_keys (labels : list (text * text)) (c l c' : text) :
  c' ∈ keys (setdefault labels c l) <-> c' = c \/ c' ∈ keys labels.
Proof.
  unfold setdefault. destruct (has_key labels c) eqn:Hk.
  - apply has_key_true in Hk. split; [tauto|]. by intros [->|?].
  - unfold keys. rewrite map_app, elem_of_app. simpl.
    rewrite list_elem_of_singleton. tauto.
Qed.

Lemma fold_setdefault_keys (its acc : list (text * text)) (c : text) :
  c ∈ keys (fold_left (fun labels cl => setdefault labels cl.1 cl.2) its acc)
  <-> c ∈ keys acc \/ c ∈ keys its.
Proof.
  revert acc. induction its as [|[k l] its IH]; intros acc; simpl.
  - change (keys []) with (@nil text). rewrite elem_of_nil. tauto.
  - rewrite IH, setdefault_keys.
    change (keys ((k, l) :: its)) with (k :: keys its).
    rewrite elem_of_cons. tauto.
Qed.

(** The keys of [labels] are the codes of the rows that were kept. *)
Lemma build_labels_keys (its : list (text * text)) (c : text) :
  c ∈ keys (build_labels its) <-> c ∈ keys its.
Proof.
  unfold build_labels. rewrite fold_setdefault_keys.
  change (keys []) with (@nil text). rewrite elem_of_nil. tauto.
Qed.

Lemma broad_codes_elem_of labels (c : text) :
  c ∈ broad_codes labels <-> length c = 2%nat /\ c ∈ keys labels.
Proof. unfold broad_codes. by rewrite sorted_elem_of, list_elem_of_filter. Qed.

Lemma narrow_codes_elem_of labels (c : text) :
  c ∈ narrow_codes labels
  <-> (length c = 3%nat /\ take 2 c ∈ keys labels) /\ c ∈ keys labels.
Proof.
  unfold narrow_codes.
  by rewrite sorted_elem_of, list_elem_of_filter, has_key_true.
Qed.

Lemma detailed_codes_elem_of labels (c : text) :
  c ∈ detailed_codes labels
  <-> (length c = 4%nat /\ take 3 c ∈ keys labels) /\ c ∈ keys labels.
Proof.
  unfold detailed_codes.
  by rewrite sorted_elem_of, list_elem_of_filter, has_key_true.
Qed.

Variable ascii_fold : text -> text.

Lemma domains_elem_of (rows : list row) (d : domain) :
  d ∈ domains ascii_fold rows ->
  exists bc, d = build_domain ascii_fold (build_labels (items rows)) bc
             /\ bc ∈ broad_codes (build_labels (items rows)).
Proof.
  unfold domains. rewrite list_elem_of_In, in_map_iff.
  intros (bc & <- & Hin). exists bc. by rewrite list_elem_of_In.
Qed.

Lemma subjects_elem_of labels (bc : text) (s : subject) :
  s ∈ subjects (build_domain ascii_fold labels bc) ->
  exists nc, s = build_subject ascii_fold labels nc
             /\ startswith nc bc = true /\ nc ∈ narrow_codes labels.
Proof.
  simpl. rewrite list_elem_of_In, in_map_iff.
  intros (nc & <- & Hin). exists nc.
  apply list_elem_of_In, list_elem_of_filter in Hin. tauto.
Qed.

Lemma topics_elem_of labels (nc : text) (t : topic) :
  t ∈ topics (build_subject ascii_fold labels nc) ->
  exists dc, t = build_topic ascii_fold labels dc
             /\ startswith dc nc = true /\ dc ∈ detailed_codes labels.
Proof.
  simpl. rewrite list_elem_of_In, in_map_iff.
  intros (dc & <- & Hin). exists dc.
  apply list_elem_of_In, list_elem_of_filter in Hin. tauto.
Qed.

(** The codes kept from the rows are two, three or four digits. *)
Lemma match_notation_digits (notation c : text) :
  match_notation notation = Some c -> forallb Re.is_digit c = true.
Proof.
  unfold match_notation. destruct notation as [|f digits]; [done|].
  destruct (Ascii.eqb f "F" && forallb Re.is_digit digits && _) eqn:H; [|done].
  intros [= <-]. apply andb_prop in H as [H _]. by apply andb_prop in H as [_ H].
Qed.

Lemma items_digits (rows : list row) (c : text) :
  c ∈ keys (items rows) -> forallb Re.is_digit c = true.
Proof.
  induction rows as [|r rows IH]; simpl.
  - intros H. by apply elem_of_nil in H.
  - destruct (match_notation _) as [c'|] eqn:Hm; [|done].
    change (keys ((c', strip (default [] (Label_ r))) :: items rows))
      with (c' :: keys (items rows)).
    intros [->|H]%elem_of_cons; [|by apply IH].
    by apply match_notation_digits in Hm.
Qed.

(** A subject stands under the domain whose code is its first two
    characters, a topic under the subject whose code is its first three. *)
Lemma subject_under_domain (rows : list row) (d : domain) (s : subject) :
  d ∈ domains ascii_fold rows -> s ∈ subjects d ->
  length (code (domain_node d)) = 2%nat
  /\ length (code (subject_node s)) = 3%nat
  /\ take 2 (code (subject_node s)) = code (domain_node d)
  /\ code (domain_node d) ∈ keys (items rows)
  /\ code (subject_node s) ∈ keys (items rows).
Proof.
  intros (bc & -> & Hbc)%domains_elem_of (nc & -> & Hpre & Hnc)%subjects_elem_of.
  apply broad_codes_elem_of in Hbc as [Hlen Hkey].
  apply narrow_codes_elem_of in Hnc as [[Hlen3 _] Hkey3].
  simpl. repeat split; [done|done| |by apply build_labels_keys..].
  rewrite <- Hlen. by apply startswith_take.
Qed.

Lemma topic_under_subject (rows : list row) (d : domain) (s : subject) (t : topic) :
  d ∈ domains ascii_fold rows -> s ∈ subjects d -> t ∈ topics s ->
  length (code (topic_node t)) = 4%nat
  /\ take 3 (code (topic_node t)) = code (subject_node s)
  /\ code (subject_node s) ∈ keys (items rows)
  /\ code (topic_node t) ∈ keys (items rows).
Proof.
  intros (bc & -> & Hbc)%domains_elem_of (nc & -> & Hpre & Hnc)%subjects_elem_of
    (dc & -> & Hpre' & Hdc)%topics_elem_of.
  apply narrow_codes_elem_of in Hnc as [[Hlen3 _] Hkey].
  apply detailed_codes_elem_of in Hdc as [[Hlen4 _] Hkey4].
  simpl. repeat split; [done| |by apply build_labels_keys..].
  rewrite <- Hlen3. by apply startswith_take.
Qed.

End Isced.

(** C10.  Hierarchy closure of the rebuilt classification.  In the tree that
    [main] serialises, every subject has a code of three digits whose
    first two are the code of the domain it stands in, and every topic a
    code of four digits whose first three are the code of the subject it
    stands in.  A code whose first two (three) characters are the code of
    no kept row is the code of no subject (topic) of the tree. *)
Theorem hierarchy_closure (ascii_fold : text -> text) (rows : list RebuildIsced.row) :
  (forall d s,
     d ∈ RebuildIsced.domains ascii_fold rows -> s ∈ RebuildIsced.subjects d ->
     length (RebuildIsced.code (RebuildIsced.subject_node s)) = 3%nat
     /\ forallb Re.is_digit (RebuildIsced.code (RebuildIsced.subject_node s)) = true
     /\ length (RebuildIsced.code (RebuildIsced.domain_node d)) = 2%nat
     /\ take 2 (RebuildIsced.code (RebuildIsced.subject_node s))
        = RebuildIsced.code (RebuildIsced.domain_node d))
  /\ (forall d s t,
        d ∈ RebuildIsced.domains ascii_fold rows -> s ∈ RebuildIsced.subjects d ->
        t ∈ RebuildIsced.topics s ->
        length (RebuildIsced.code (RebuildIsced.topic_node t)) = 4%nat
        /\ forallb Re.is_digit (RebuildIsced.code (RebuildIsced.topic_node t)) = true
        /\ take 3 (RebuildIsced.code (RebuildIsced.topic_node t))
           = RebuildIsced.code (RebuildIsced.subject_node s))
  /\ (forall c d s,
        take 2 c ∉ RebuildIsced.keys (RebuildIsced.items rows) ->
        d ∈ RebuildIsced.domains ascii_fold rows -> s ∈ RebuildIsced.subjects d ->
        RebuildIsced.code (RebuildIsced.subject_node s) <> c)
  /\ (forall c d s t,
        take 3 c ∉ RebuildIsced.keys (RebuildIsced.items rows) ->
        d ∈ RebuildIsced.domains ascii_fold rows -> s ∈ RebuildIsced.subjects d ->
        t ∈ RebuildIsced.topics s ->
        RebuildIsced.code (RebuildIsced.topic_node t) <> c).
Proof.
  split; [|split; [|split]].
  - intros d s Hd Hs.
    destruct (subject_under_domain ascii_fold rows d s Hd Hs) as (? & ? & ? & ? & Hk).
    apply items_digits in Hk. done.
  - intros d s t Hd Hs Ht.
    destruct (topic_under_subject ascii_fold rows d s t Hd Hs Ht) as (? & ? & ? & Hk).
    apply items_digits in Hk. done.
  - intros c d s Habsent Hd Hs <-.
    destruct (subject_under_domain ascii_fold rows d s Hd Hs)
      as (_ & _ & Hpre & Hkey & _).
    apply Habsent. by rewrite Hpre.
  - intros c d s t Habsent Hd Hs Ht <-.
    destruct (topic_under_subject ascii_fold rows d s t Hd Hs Ht)
      as (_ & Hpre & Hkey & _).
    apply Habsent. by rewrite Hpre.
Qed.

(** The tree of the example rows: one domain, one subject, one topic; the
    narrow field [099], whose broad field is in no row, is left out. *)
Lemma hierarchy_closure_witness :
  map (fun d => (RebuildIsced.code (RebuildIsced.domain_node d),
                 map (fun s => (RebuildIsced.code (RebuildIsced.subject_node s),
                                map (fun t => RebuildIsced.code (RebuildIsced.topic_node t))
                                    (RebuildIsced.topics s)))
                     (RebuildIsced.subjects d)))
      (RebuildIsced.domains (fun t => t) Examples.isced_rows)
  = [(txt "01", [(txt "011", [txt "0111"])])]
  /\ (forall d s,
        d ∈ RebuildIsced.domains (fun t => t) Examples.isced_rows ->
        s ∈ RebuildIsced.subjects d ->
        RebuildIsced.code (RebuildIsced.subject_node s) <> txt "099").
Proof.
  split; [vm_compute; reflexivity|].
  intros d s.
  apply (hierarchy_closure (fun t => t) Examples.isced_rows).
  vm_compute. intros H. repeat (apply elem_of_cons in H as [H|H]; [discriminate H|]).
  by apply elem_of_nil in H.
Defined.

(** ** Stripping, splitting and joining *)

Section Strip.











Lemma elem_of_lstrip (x : ascii) (s : text) : x ∈ lstrip s -> x ∈ s.
Proof.
  induction s as [|c s IH]; simpl; [done|].
  destruct (is_space c); [|done]. intros H. right. by apply IH.
Qed.

Lemma elem_of_strip (x : ascii) (s : text) : x ∈ strip s -> x ∈ s.
Proof.
  unfold strip, rstrip. rewrite list_elem_of_In, <- in_rev, <- list_elem_of_In.
  intros H%elem_of_lstrip. rewrite list_elem_of_In, <- in_rev, <- list_elem_of_In in H.
  by apply elem_of_lstrip.
Qed.

End Strip.

Section SplitJoin.

Variable sep : ascii.

Lemma split_on_nonempty (s : text) : split_on sep s <> [].
Proof.
  destruct s as [|c s]; simpl; [done|].
  destruct (Ascii.eqb c sep); [done|]. by destruct (split_on sep s).
Qed.

Lemma split_on_no_sep (s : text) : sep ∉ s -> split_on sep s = [s].
Proof.
  induction s as [|c s IH]; simpl; [done|].
  intros Hc. apply not_elem_of_cons in Hc as [Hne Hs].
  destruct (Ascii.eqb c sep) eqn:Heq.
  - apply Ascii.eqb_eq in Heq. congruence.
  - by rewrite IH.
Qed.

Lemma split_on_app (l t : text) :
  sep ∉ l -> split_on sep (l ++ sep :: t) = l :: split_on sep t.
Proof.
  induction l as [|c l IH]; simpl.
  - intros _. by rewrite Ascii.eqb_refl.
  - intros Hc. apply not_elem_of_cons in Hc as [Hne Hl].
    destruct (Ascii.eqb c sep) eqn:Heq.
    + apply Ascii.eqb_eq in Heq. congruence.
    + by rewrite IH.
Qed.

(** The pieces of a split hold no separator. *)
Lemma split_on_pieces (s : text) : Forall (fun l => sep ∉ l) (split_on sep s).
Proof.
  induction s as [|c s IH]; simpl.
  - constructor; [apply not_elem_of_nil|constructor].
  - destruct (Ascii.eqb c sep) eqn:Heq.
    + constructor; [apply not_elem_of_nil|done].
    + destruct (split_on sep s) as [|l ls] eqn:E; [by apply split_on_nonempty in E|].
      inversion IH as [|? ? Hl Hls]; subst. constructor; [|done].
      apply not_elem_of_cons. split; [|done].
      intros ->. by rewrite Ascii.eqb_refl in Heq.
Qed.

(** [sep.join(ls).split(sep) == ls] for pieces that hold no separator. *)
Lemma split_join (ls : list text) :
  ls <> [] -> Forall (fun l => sep ∉ l) ls -> split_on sep (join_on sep ls) = ls.
Proof.
  induction ls as [|l ls IH]; [done|]. intros _ Hall.
  inversion Hall as [|? ? Hl Hls]; subst.
  destruct ls as [|l' ls].
  - simpl. by apply split_on_no_sep.
  - change (join_on sep (l :: l' :: ls)) with (l ++ sep :: join_on sep (l' :: ls)).
    rewrite split_on_app by done. f_equal. by apply IH.
Qed.

End SplitJoin.

(** ** The indentation pass of the cleanup *)

Section Indentation.

Import CleanupHtmlSimple.


Lemma indent_no_nl (k : nat) : nl ∉ indent k.
Proof.
  assert (Hne : nl <> " "%char) by (intros H; vm_compute in H; discriminate H).
  unfold indent. induction k as [|k IH]; simpl; [apply not_elem_of_nil|].
  rewrite !not_elem_of_cons. done.
Qed.


Lemma fix_lines_length (k : nat) (lines : list text) :
  length (fix_lines k lines) = length lines.
Proof.
  revert k. induction lines as [|line rest IH]; intros k; simpl; [done|].
  destruct (strip line); simpl; by rewrite IH.
Qed.



Lemma fix_lines_no_nl (k : nat) (lines : list text) :
  Forall (fun l => nl ∉ l) lines -> Forall (fun l => nl ∉ l) (fix_lines k lines).
Proof.
  intros Hall. revert k. induction Hall as [|line rest Hline _ IH]; intros k; simpl.
  - constructor.
  - destruct (strip line) as [|c t] eqn:Hs.
    + constructor; [apply not_elem_of_nil|apply IH].
    + constructor; [|apply IH].
      rewrite not_elem_of_app. split; [apply indent_no_nl|].
      rewrite <- Hs. intros H. by apply elem_of_strip in H.
Qed.

Lemma fix_lines_nonempty (k : nat) (lines : list text) :
  lines <> [] -> fix_lines k lines <> [].
Proof.
  intros Hne Hfix. apply (f_equal length) in Hfix.
  rewrite fix_lines_length in Hfix. by destruct lines.
Qed.

(** The lines of a text the pass has written are the lines it wrote. *)
Lemma split_fix_indentation (content : text) :
  split_on nl (fix_indentation content) = fix_lines 0 (split_on nl content).
Proof.
  unfold fix_indentation. apply split_join.
  - apply fix_lines_nonempty, split_on_nonempty.
  - apply fix_lines_no_nl, split_on_pieces.
Qed.



End Indentation.




(** ** [str.replace]: what it puts in and what it leaves alone *)

Section Replace.





Lemma contains_here (sub s : text) : startswith s sub = true -> contains sub s = true.
Proof. intros H. destruct s; simpl in *; by rewrite H. Qed.

Lemma contains_cons (sub s : text) (c : ascii) :
  contains sub s = true -> contains sub (c :: s) = true.
Proof. intros H. simpl. rewrite H. apply orb_true_r. Qed.

Lemma contains_app_r (sub a s : text) :
  contains sub s = true -> contains sub (a ++ s) = true.
Proof. intros H. induction a as [|c a IH]; [done|]. by apply contains_cons. Qed.

Lemma contains_cons_inv (sub s : text) (c : ascii) :
  contains sub (c :: s) = true ->
  startswith (c :: s) sub = true \/ contains sub s = true.
Proof. simpl. intros H. apply orb_prop in H. tauto. Qed.





End Replace.

(** ** The loops that export a list of functions *)

Section ExportLoops.

Import SplitTemplateBlueprint.




End ExportLoops.




(** * Further properties of the scripts *)

(** ** What a run touches and when it succeeds *)

Section Runs.

Lemma first_index_is_Some {A} (p : A -> bool) (l : list A) :
  is_Some (first_index p l) <-> exists x, x ∈ l /\ p x = true.
Proof.
  induction l as [|x l IH]; simpl.
  - split; [by intros [? ?]|]. intros (x & Hx & _). by apply elem_of_nil in Hx.
  - destruct (p x) eqn:Hpx.
    + split; [|by eauto]. intros _. exists x. split; [left|done].
    + rewrite fmap_is_Some, IH. split.
      * intros (y & Hy & Hpy). exists y. split; [by right|done].
      * intros (y & Hy & Hpy). apply elem_of_cons in Hy as [->|Hy]; [congruence|eauto].
Qed.

Lemma toolbar_find_line_found (ls : list text) (t : text) :
  SplitToolbar.find_line ls t <> -1 <-> exists line, line ∈ ls /\ contains t line = true.
Proof.
  rewrite toolbar_find_line_index, <- first_index_is_Some.
  destruct (first_index _ _) as [k|].
  - split; [by eauto|]. intros _. lia.
  - split; [done|]. by intros [? ?].
Qed.

Lemma blueprint_find_line_found (pattern src : text) :
  (exists i, SplitTemplateBlueprint.find_line pattern src = Ok i)
  <-> exists line, line ∈ splitlines false src /\ contains pattern line = true.
Proof.
  rewrite <- first_index_is_Some. split.
  - intros [i Hi]. apply blueprint_find_line_index in Hi. by rewrite Hi.
  - intros [i Hi]. exists i. by apply blueprint_find_line_index.
Qed.

Lemma toolbar_boundary_missing_false (lines : list text) :
  SplitToolbar.boundary_missing lines = false
  <-> SplitToolbar.opt_primitives_start lines <> -1
      /\ SplitToolbar.opts_strip_comment_start lines <> -1
      /\ SplitToolbar.tool_button_start lines <> -1
      /\ SplitToolbar.toolbar_start lines <> -1.
Proof.
  unfold SplitToolbar.boundary_missing. cbn [existsb].
  rewrite !orb_false_iff, !Z.eqb_neq. intuition congruence.
Qed.

Lemma blueprint_locate_Ok (src : text) :
  (exists b, SplitTemplateBlueprint.locate src = Ok b)
  <-> Forall (fun marker => exists i, SplitTemplateBlueprint.find_line marker src = Ok i)
        [SplitTemplateBlueprint.types_marker; SplitTemplateBlueprint.media_marker;
         SplitTemplateBlueprint.slot_views_marker; SplitTemplateBlueprint.live_marker;
         SplitTemplateBlueprint.main_marker; SplitTemplateBlueprint.props_marker].
Proof.
  unfold SplitTemplateBlueprint.locate. split.
  - intros [b Hb].
    destruct (SplitTemplateBlueprint.find_line SplitTemplateBlueprint.types_marker src)
      eqn:H1; [|done].
    destruct (SplitTemplateBlueprint.find_line SplitTemplateBlueprint.media_marker src)
      eqn:H2; [|done].
    destruct (SplitTemplateBlueprint.find_line SplitTemplateBlueprint.slot_views_marker src)
      eqn:H3; [|done].
    destruct (SplitTemplateBlueprint.find_line SplitTemplateBlueprint.live_marker src)
      eqn:H4; [|done].
    destruct (SplitTemplateBlueprint.find_line SplitTemplateBlueprint.main_marker src)
      eqn:H5; [|done].
    destruct (SplitTemplateBlueprint.find_line SplitTemplateBlueprint.props_marker src)
      eqn:H6; [|done].
    repeat (constructor; [by eauto|]). constructor.
  - intros H.
    repeat match goal with
           | H : Forall _ (_ :: _) |- _ => apply Forall_cons in H as [[? ->] H]
           end.
    simpl. eauto.
Qed.

End Runs.

(** X1.  A run changes no file but its own destinations: the two files of
    split-toolbar.py and of split-canvas-projection.py, the five files of
    split-template-blueprint.py, the one file of update-route.py, and the
    file handed to [clean_html_structure_simple] and to
    [update_navigation_classes]. *)
Theorem runs_touch_only_destinations (fs : store) (p file_path : string) :
  (p <> SplitToolbar.toolbar_path -> p <> SplitToolbar.options_path ->
   (SplitToolbar.run fs).2 !! p = fs !! p)
  /\ (p <> SplitCanvasProjection.path -> p <> SplitCanvasProjection.projector_path ->
      (SplitCanvasProjection.run fs).2 !! p = fs !! p)
  /\ (p ∉ [SplitTemplateBlueprint.MAIN; SplitTemplateBlueprint.TYPES_FILE;
            SplitTemplateBlueprint.MEDIA_FILE; SplitTemplateBlueprint.SLOT_FILE;
            SplitTemplateBlueprint.LIVE_FILE] ->
      (SplitTemplateBlueprint.run fs).2 !! p = fs !! p)
  /\ (p <> UpdateRoute.path -> (UpdateRoute.run fs).2 !! p = fs !! p)
  /\ (p <> file_path ->
      CleanupHtmlSimple.clean_html_structure_simple file_path fs !! p = fs !! p)
  /\ (p <> file_path ->
      (UpdateNavClasses.update_navigation_classes file_path fs).2 !! p = fs !! p).
Proof.
  split; [|split; [|split; [|split; [|split]]]].
  - intros H1 H2. unfold SplitToolbar.run.
    destruct (fs !! SplitToolbar.toolbar_path); [|done].
    destruct (SplitToolbar.boundary_missing _); [done|].
    simpl. unfold SplitToolbar.emit. rewrite !write_file_lookup.
    repeat case_decide; congruence.
  - intros H1 H2. unfold SplitCanvasProjection.run.
    destruct (fs !! SplitCanvasProjection.path); [|done].
    destruct (SplitCanvasProjection.boundary_line _); [|done].
    simpl. unfold SplitCanvasProjection.emit. rewrite !write_file_lookup.
    repeat case_decide; congruence.
  - intros Hp. unfold SplitTemplateBlueprint.run.
    destruct (fs !! SplitTemplateBlueprint.MAIN); [|done].
    destruct (SplitTemplateBlueprint.locate _); [|done].
    simpl. unfold SplitTemplateBlueprint.emit. rewrite !write_file_lookup.
    rewrite !not_elem_of_cons in Hp. destruct Hp as (? & ? & ? & ? & ? & _).
    repeat case_decide; congruence.
  - intros H1. unfold UpdateRoute.run.
    destruct (fs !! UpdateRoute.path); [|done].
    destruct (negb _); [done|]. cbv zeta.
    destruct (UpdateRoute.search_block _) as [[start stop]|]; [|done].
    simpl. rewrite write_file_lookup. case_decide; congruence.
  - intros H1. unfold CleanupHtmlSimple.clean_html_structure_simple.
    destruct (fs !! file_path); [|done].
    rewrite write_file_lookup. case_decide; congruence.
  - intros H1. unfold UpdateNavClasses.update_navigation_classes,
      UpdateNavClasses.write_back.
    destruct (fs !! file_path); [|done].
    case_bool_decide; [|done]. simpl.
    rewrite write_file_lookup. case_decide; congruence.
Qed.

Lemma runs_touch_only_destinations_witness :
  (SplitCanvasProjection.run {[SplitCanvasProjection.path := Examples.canvas_src]}).2
    !! "README.md"%string
  = ({[SplitCanvasProjection.path := Examples.canvas_src]} : store) !! "README.md"%string.
Proof.
  destruct (runs_touch_only_destinations
              {[SplitCanvasProjection.path := Examples.canvas_src]}
              "README.md" "index.html") as (_ & Hcanvas & _).
  apply Hcanvas; discriminate.
Defined.

(** X2.  A splitter ends with process result 0 exactly when its file is
    there and every marker stands in some line of it: the exit guard of
    split-toolbar.py and of split-canvas-projection.py and the [ValueError]
    of split-template-blueprint.py are the only ways to fail. *)
Theorem run_succeeds_iff_markers_found (fs : store) :
  (exit_code (SplitToolbar.run fs).1 = 0
   <-> exists content,
         fs !! SplitToolbar.toolbar_path = Some content
         /\ Forall (fun marker =>
                      exists line, line ∈ readlines content /\ contains marker line = true)
              [SplitToolbar.opt_primitives_marker; SplitToolbar.opts_strip_marker;
               SplitToolbar.tool_button_marker; SplitToolbar.toolbar_marker])
  /\ (exit_code (SplitCanvasProjection.run fs).1 = 0
      <-> exists content,
            fs !! SplitCanvasProjection.path = Some content
            /\ exists line, line ∈ readlines content
                            /\ SplitCanvasProjection.is_boundary line = true)
  /\ (exit_code (SplitTemplateBlueprint.run fs).1 = 0
      <-> exists content,
            fs !! SplitTemplateBlueprint.MAIN = Some content
            /\ Forall (fun marker =>
                         exists line, line ∈ splitlines false content
                                      /\ contains marker line = true)
                 [SplitTemplateBlueprint.types_marker; SplitTemplateBlueprint.media_marker;
                  SplitTemplateBlueprint.slot_views_marker;
                  SplitTemplateBlueprint.live_marker; SplitTemplateBlueprint.main_marker;
                  SplitTemplateBlueprint.props_marker]).
Proof.
  split; [|split].
  - unfold SplitToolbar.run.
    destruct (fs !! SplitToolbar.toolbar_path) as [content|]; simpl.
    + destruct (SplitToolbar.boundary_missing (readlines content)) eqn:Hm; simpl.
      * split; [done|]. intros (c & [= <-] & Hall).
        assert (SplitToolbar.boundary_missing (readlines content) = false);
          [|congruence].
        apply toolbar_boundary_missing_false.
        rewrite !Forall_cons in Hall. destruct Hall as (H1 & H2 & H3 & H4 & _).
        repeat split; by apply toolbar_find_line_found.
      * split; [|done]. intros _. exists content. split; [done|].
        apply toolbar_boundary_missing_false in Hm as (H1 & H2 & H3 & H4).
        repeat (constructor; [by apply toolbar_find_line_found|]). constructor.
    + split; [done|]. by intros (c & ? & _).
  - unfold SplitCanvasProjection.run.
    destruct (fs !! SplitCanvasProjection.path) as [content|]; simpl.
    + rewrite canvas_boundary_line_index.
      destruct (first_index _ _) as [b|] eqn:Hb; simpl.
      * split; [|done]. intros _. exists content. split; [done|].
        apply first_index_is_Some. by rewrite Hb.
      * split; [done|]. intros (c & [= <-] & Hex).
        apply first_index_is_Some in Hex. rewrite Hb in Hex. by destruct Hex.
    + split; [done|]. by intros (c & ? & _).
  - unfold SplitTemplateBlueprint.run.
    destruct (fs !! SplitTemplateBlueprint.MAIN) as [content|]; simpl.
    + destruct (SplitTemplateBlueprint.locate content) as [b|e] eqn:Hloc; simpl.
      * split; [|done]. intros _. exists content. split; [done|].
        assert (Hex : exists b, SplitTemplateBlueprint.locate content = Ok b) by eauto.
        apply blueprint_locate_Ok in Hex.
        eapply Forall_impl; [exact Hex|]. intros m Hm. by apply blueprint_find_line_found.
      * split; [done|]. intros (c & [= <-] & Hall).
        assert (Hex : exists b, SplitTemplateBlueprint.locate content = Ok b).
        { apply blueprint_locate_Ok. eapply Forall_impl; [exact Hall|].
          intros m Hm. by apply blueprint_find_line_found. }
        destruct Hex as [b Hb]. congruence.
    + split; [done|]. by intros (c & ? & _).
Qed.

(** ** split-toolbar.py: where the new import goes *)

Section ToolbarImport.

Import SplitToolbar.

Lemma last_import_from_none (i last : nat) (ls : list text) :
  (forall line, line ∈ ls -> startswith (strip line) (txt "import") = false) ->
  last_import_from i last ls = last.
Proof.
  revert i last. induction ls as [|line rest IH]; intros i last Hall; [done|].
  cbn [last_import_from]. rewrite (Hall line) by left.
  apply IH. intros l Hl. apply Hall. by right.
Qed.

Lemma last_import_from_last (i last k : nat) (ls : list text) (line : text) :
  ls !! k = Some line ->
  startswith (strip line) (txt "import") = true ->
  (forall j l, (k < j)%nat -> ls !! j = Some l ->
               startswith (strip l) (txt "import") = false) ->
  last_import_from i last ls = (i + k)%nat.
Proof.
  revert i last k. induction ls as [|x rest IH]; intros i last k Hk Hp Hlater; [done|].
  cbn [last_import_from]. destruct k as [|k]; simpl in Hk.
  - injection Hk as ->. rewrite Hp, last_import_from_none; [lia|].
    intros l [j Hj]%list_elem_of_lookup_1. apply (Hlater (S j)); [lia|done].
  - rewrite (IH (S i) _ k); [lia|done|done|].
    intros j l Hj Hl. apply (Hlater (S j)); [lia|done].
Qed.

End ToolbarImport.

(** X3.  split-toolbar.py puts the import of [ToolOptionsStrip] directly
    below the last line of the kept head whose stripped text starts with
    [import]; the lines above and below it are the kept head, in order.
    When no line of the head is an import, the new line goes below the
    first line ([last_import_idx] stays 0), and onto an empty head it is
    the only line. *)
Theorem toolbar_import_goes_below_last_import (lines : list text) (i : nat)
    (line : text) :
  (SplitToolbar.kept_start lines !! i = Some line ->
   startswith (strip line) (txt "import") = true ->
   (forall j l, (i < j)%nat -> SplitToolbar.kept_start lines !! j = Some l ->
                startswith (strip l) (txt "import") = false) ->
   SplitToolbar.last_import_idx lines = i
   /\ SplitToolbar.kept_start_with_import lines
      = take (S i) (SplitToolbar.kept_start lines)
        ++ SplitToolbar.import_line :: drop (S i) (SplitToolbar.kept_start lines)
   /\ SplitToolbar.kept_start_with_import lines !! i = Some line
   /\ SplitToolbar.kept_start_with_import lines !! S i = Some SplitToolbar.import_line)
  /\ ((forall l, l ∈ SplitToolbar.kept_start lines ->
                 startswith (strip l) (txt "import") = false) ->
      SplitToolbar.last_import_idx lines = 0%nat
      /\ SplitToolbar.kept_start_with_import lines
         = take 1 (SplitToolbar.kept_start lines)
           ++ SplitToolbar.import_line :: drop 1 (SplitToolbar.kept_start lines))
  /\ length (SplitToolbar.kept_start_with_import lines)
     = S (length (SplitToolbar.kept_start lines)).
Proof.
  split; [|split].
  - intros Hi Hp Hlater.
    assert (Hidx : SplitToolbar.last_import_idx lines = i).
    { unfold SplitToolbar.last_import_idx.
      by rewrite (last_import_from_last 0 0 i _ line). }
    pose proof (lookup_lt_Some _ _ _ Hi) as Hlt.
    unfold SplitToolbar.kept_start_with_import, SplitToolbar.list_insert_at.
    rewrite Hidx, Nat.add_1_r. split; [done|]. split; [done|]. split.
    + rewrite lookup_app_l by (rewrite length_take; lia).
      by rewrite lookup_take_lt by lia.
    + rewrite lookup_app_r by (rewrite length_take; lia).
      rewrite length_take. by replace (S i - S i `min` _)%nat with 0%nat by lia.
  - intros Hnone.
    assert (Hidx : SplitToolbar.last_import_idx lines = 0%nat).
    { unfold SplitToolbar.last_import_idx. by apply last_import_from_none. }
    unfold SplitToolbar.kept_start_with_import, SplitToolbar.list_insert_at.
    by rewrite Hidx.
  - unfold SplitToolbar.kept_start_with_import, SplitToolbar.list_insert_at.
    rewrite length_app. simpl. rewrite length_take, length_drop. lia.
Qed.

Lemma toolbar_import_goes_below_last_import_witness :
  SplitToolbar.last_import_idx
    ((txt "import a" ++ [nl]) :: (txt "  import b" ++ [nl]) :: (txt "type T = 1" ++ [nl])
       :: Examples.toolbar_in_order) = 1%nat
  /\ SplitToolbar.kept_start_with_import
       ((txt "import a" ++ [nl]) :: (txt "  import b" ++ [nl]) :: (txt "type T = 1" ++ [nl])
          :: Examples.toolbar_in_order)
     = [txt "import a" ++ [nl]; txt "  import b" ++ [nl]; SplitToolbar.import_line;
        txt "type T = 1" ++ [nl]].
Proof.
  destruct (toolbar_import_goes_below_last_import
              ((txt "import a" ++ [nl]) :: (txt "  import b" ++ [nl])
                 :: (txt "type T = 1" ++ [nl]) :: Examples.toolbar_in_order)
              1 (txt "  import b" ++ [nl])) as (Hlast & _).
  destruct Hlast as (Hidx & Hins & _).
  - reflexivity.
  - reflexivity.
  - intros j l Hj Hl. vm_compute in Hl.
    destruct j as [|[|[|j]]]; [lia|lia| |discriminate Hl].
    injection Hl as <-. reflexivity.
  - split; [exact Hidx|]. rewrite Hins. reflexivity.
Defined.

(** X4.  Boundary ownership in split-toolbar.py.  When all markers are
    found and the [Option primitives] marker stands above the [ToolButton]
    marker, the options segment starts with the line that holds the first
    marker and has as many lines as lie between the two boundaries, the
    kept tail starts with the line that holds the second marker, and no
    line of the kept head holds the first marker. *)
Theorem toolbar_boundary_ownership (lines : list text) :
  SplitToolbar.boundary_missing lines = false ->
  SplitToolbar.opt_primitives_start lines < SplitToolbar.tool_button_start lines ->
  (exists la, head (SplitToolbar.options_lines lines) = Some la
              /\ contains SplitToolbar.opt_primitives_marker la = true)
  /\ (exists lb, head (SplitToolbar.kept_end lines) = Some lb
                 /\ contains SplitToolbar.tool_button_marker lb = true)
  /\ Z.of_nat (length (SplitToolbar.options_lines lines))
     = SplitToolbar.tool_button_start lines - SplitToolbar.opt_primitives_start lines
  /\ Z.of_nat (length (SplitToolbar.kept_start lines))
     = SplitToolbar.opt_primitives_start lines
  /\ (forall l, l ∈ SplitToolbar.kept_start lines ->
                contains SplitToolbar.opt_primitives_marker l = false).
Proof.
  intros Hfound Hlt.
  apply toolbar_boundary_missing_false in Hfound as (Ha & _ & Hb & _).
  unfold SplitToolbar.options_lines, SplitToolbar.kept_end, SplitToolbar.kept_start.
  revert Ha Hb Hlt.
  unfold SplitToolbar.opt_primitives_start, SplitToolbar.tool_button_start.
  rewrite !toolbar_find_line_index.
  destruct (first_index (contains SplitToolbar.opt_primitives_marker) lines)
    as [a|] eqn:Hfa; [|done].
  destruct (first_index (contains SplitToolbar.tool_button_marker) lines)
    as [b|] eqn:Hfb; [|done].
  intros _ _ Hlt. rewrite !Nat2Z.id.
  pose proof (first_index_lt _ _ _ Hfa) as Hla.
  pose proof (first_index_lt _ _ _ Hfb) as Hlb.
  apply first_index_Some in Hfa as [(la & Hla' & Hpa) Hmin].
  apply first_index_Some in Hfb as [(lb & Hlb' & Hpb) _].
  split; [|split; [|split; [|split]]].
  - exists la. split; [|done]. unfold slice.
    rewrite head_lookup, lookup_drop, Nat.add_0_r, lookup_take_lt by lia. done.
  - exists lb. split; [|done]. by rewrite head_lookup, lookup_drop, Nat.add_0_r.
  - unfold slice. rewrite length_drop, length_take. lia.
  - rewrite length_take. lia.
  - intros l [j Hj]%list_elem_of_lookup_1.
    pose proof (lookup_lt_Some _ _ _ Hj) as Hjl. rewrite length_take in Hjl.
    rewrite lookup_take_lt in Hj by lia. apply (Hmin j); [lia|done].
Qed.

Lemma toolbar_boundary_ownership_witness :
  (exists la, head (SplitToolbar.options_lines Examples.toolbar_in_order) = Some la
              /\ contains SplitToolbar.opt_primitives_marker la = true)
  /\ (exists lb, head (SplitToolbar.kept_end Examples.toolbar_in_order) = Some lb
                 /\ contains SplitToolbar.tool_button_marker lb = true)
  /\ Z.of_nat (length (SplitToolbar.options_lines Examples.toolbar_in_order))
     = SplitToolbar.tool_button_start Examples.toolbar_in_order
       - SplitToolbar.opt_primitives_start Examples.toolbar_in_order
  /\ Z.of_nat (length (SplitToolbar.kept_start Examples.toolbar_in_order))
     = SplitToolbar.opt_primitives_start Examples.toolbar_in_order
  /\ (forall l, l ∈ SplitToolbar.kept_start Examples.toolbar_in_order ->
                contains SplitToolbar.opt_primitives_marker l = false).
Proof.
  apply (toolbar_boundary_ownership Examples.toolbar_in_order).
  - vm_compute; reflexivity.
  - vm_compute; reflexivity.
Defined.

(** ** split-canvas-projection.py: the blank lines it drops, and a second run *)

Section CanvasTrim.

Import SplitCanvasProjection.

Lemma drop_while_split {A} (p : A -> bool) (l : list A) :
  exists pre, l = pre ++ drop_while p l
              /\ Forall (fun x => p x = true) pre
              /\ (forall x, head (drop_while p l) = Some x -> p x = false).
Proof.
  induction l as [|x l (pre & Hl & Hpre & Hhead)]; simpl.
  - exists []. repeat split; [constructor|done].
  - destruct (p x) eqn:Hpx.
    + exists (x :: pre). repeat split; [by rewrite Hl at 1|by constructor|done].
    + exists []. repeat split; [constructor|]. by intros ? [= <-].
Qed.

Lemma last_rev {A} (l : list A) : last (rev l) = head l.
Proof. destruct l as [|x l]; [done|]. simpl. apply last_snoc. Qed.

Lemma pop_trailing_blank_split (l : list text) :
  exists blanks, l = pop_trailing_blank l ++ blanks
                 /\ Forall (fun x => is_blank x = true) blanks
                 /\ (forall x, last (pop_trailing_blank l) = Some x -> is_blank x = false).
Proof.
  unfold pop_trailing_blank.
  destruct (drop_while_split is_blank (rev l)) as (pre & Hl & Hpre & Hhead).
  exists (rev pre). split; [|split].
  - rewrite <- rev_app_distr, <- Hl. by rewrite rev_involutive.
  - rewrite Forall_forall in Hpre |- *. intros x Hx. apply Hpre.
    by rewrite list_elem_of_In, in_rev, <- list_elem_of_In.
  - intros x. rewrite last_rev. apply Hhead.
Qed.

Lemma readlines_cons_terminated (body rest : text) :
  nl ∉ body -> readlines (body ++ nl :: rest) = (body ++ [nl]) :: readlines rest.
Proof.
  induction body as [|c body IH]; intros Hnl.
  - reflexivity.
  - apply not_elem_of_cons in Hnl as [Hne Hbody].
    change ((c :: body) ++ nl :: rest) with (c :: (body ++ nl :: rest)).
    cbn [readlines].
    destruct (Ascii.eqb c nl) eqn:Hc; [apply Ascii.eqb_eq in Hc; congruence|].
    by rewrite IH.
Qed.

(** Reading back lines that each end in their only line feed gives the
    same lines. *)
Lemma readlines_concat_terminated (ls : list text) :
  Forall terminated ls -> readlines (concat ls) = ls.
Proof.
  induction 1 as [|l ls (body & -> & Hbody) _ IH]; [done|].
  simpl. rewrite <- app_assoc. simpl.
  by rewrite readlines_cons_terminated, IH.
Qed.

(** Every line that [readlines] gives, but the last, ends in its only line
    feed. *)
Lemma readlines_terminated (s : text) (i : nat) (l : text) :
  readlines s !! i = Some l -> (S i < length (readlines s))%nat -> terminated l.
Proof.
  revert i l. induction s as [|c s IH]; intros i l; [done|]. simpl.
  destruct (Ascii.eqb c nl) eqn:Hc.
  - apply Ascii.eqb_eq in Hc as ->. destruct i as [|i]; simpl.
    + intros [= <-] _. exists []. split; [done|apply not_elem_of_nil].
    + intros Hl Hlen. apply (IH i); [done|lia].
  - destruct (readlines s) as [|l0 ls] eqn:Hs.
    + simpl. intros _ Hlen. lia.
    + destruct i as [|i]; simpl.
      * intros [= <-] Hlen.
        destruct (IH 0%nat l0 eq_refl ltac:(simpl; lia)) as (body & -> & Hbody).
        exists (c :: body). split; [done|].
        apply not_elem_of_cons. split; [|done].
        intros <-. by rewrite Ascii.eqb_refl in Hc.
      * intros Hl Hlen. apply (IH (S i)); [done|simpl; lia].
Qed.

End CanvasTrim.

(** X5.  What split-canvas-projection.py writes to the first file, against
    the lines it cut: the cut lines are the lines kept followed by lines
    that are all blank; the last line kept is not blank; and the text
    written is the lines kept and one line feed. *)
Theorem canvas_drops_trailing_blank_lines (lines : list text) (b : nat) :
  exists kept blanks,
    take b lines = kept ++ blanks
    /\ Forall (fun l => SplitCanvasProjection.is_blank l = true) blanks
    /\ (forall l, last kept = Some l -> SplitCanvasProjection.is_blank l = false)
    /\ SplitCanvasProjection.projection_lines lines b = kept ++ [[nl]].
Proof.
  destruct (pop_trailing_blank_split (take b lines)) as (blanks & Hsplit & Hblank & Hlast).
  exists (SplitCanvasProjection.pop_trailing_blank (take b lines)), blanks.
  done.
Qed.

(** X6.  split-canvas-projection.py cannot be run twice: after a run that
    ended with result 0 the first file holds no boundary line any more
    (the boundary was the first one, and it went to the second file), so a
    second run ends with result 1 and writes nothing. *)
Theorem canvas_split_is_single_shot (fs : store) :
  exit_code (SplitCanvasProjection.run fs).1 = 0 ->
  SplitCanvasProjection.run (SplitCanvasProjection.run fs).2
  = (Exit 1, (SplitCanvasProjection.run fs).2).
Proof.
  unfold SplitCanvasProjection.run at 1 3 4.
  destruct (fs !! SplitCanvasProjection.path) as [content|] eqn:Hfile; [|done].
  cbv zeta. rewrite canvas_boundary_line_index.
  destruct (first_index _ _) as [b|] eqn:Hb; [|done]. intros _. cbn [snd].
  pose proof (first_index_lt _ _ _ Hb) as Hlt.
  apply first_index_Some in Hb as [_ Hmin].
  destruct (projection_lines_prefix (readlines content) b) as (k & Hk & Hproj).
  unfold SplitCanvasProjection.run.
  assert (Hpath : SplitCanvasProjection.emit
                    (SplitCanvasProjection.projection_lines (readlines content) b)
                    (SplitCanvasProjection.projector_content (readlines content) b) fs
                  !! SplitCanvasProjection.path
                  = Some (join_empty
                            (SplitCanvasProjection.projection_lines (readlines content) b))).
  { unfold SplitCanvasProjection.emit. rewrite !write_file_lookup.
    by repeat case_decide. }
  rewrite Hpath, Hproj. unfold join_empty.
  rewrite readlines_concat_terminated.
  - rewrite canvas_boundary_line_index.
    assert (first_index SplitCanvasProjection.is_boundary
              (take k (readlines content) ++ [[nl]]) = None) as ->; [|done].
    apply first_index_None. intros x [Hx| ->%list_elem_of_singleton]%elem_of_app.
    + apply list_elem_of_lookup_1 in Hx as [j Hj].
      pose proof (lookup_lt_Some _ _ _ Hj) as Hjl. rewrite length_take in Hjl.
      rewrite lookup_take_lt in Hj by lia. apply (Hmin j); [lia|done].
    + reflexivity.
  - apply Forall_app. split.
    + apply Forall_forall. intros x [j Hj]%list_elem_of_lookup_1.
      pose proof (lookup_lt_Some _ _ _ Hj) as Hjl. rewrite length_take in Hjl.
      rewrite lookup_take_lt in Hj by lia.
      apply (readlines_terminated content j); [done|lia].
    + repeat constructor. exists []. split; [done|apply not_elem_of_nil].
Qed.

Lemma canvas_split_is_single_shot_witness :
  SplitCanvasProjection.run
    (SplitCanvasProjection.run {[SplitCanvasProjection.path := Examples.canvas_src]}).2
  = (Exit 1,
     (SplitCanvasProjection.run {[SplitCanvasProjection.path := Examples.canvas_src]}).2).
Proof.
  apply (canvas_split_is_single_shot
           {[SplitCanvasProjection.path := Examples.canvas_src]}).
  unfold SplitCanvasProjection.run. rewrite lookup_singleton_eq. reflexivity.
Defined.

(** ** [str.find] and the first occurrence *)

Section Find.

Lemma startswith_nil_l (p : text) : startswith [] p = true -> p = [].
Proof. by destruct p. Qed.

Lemma startswith_take_inv (n : nat) (s p : text) :
  startswith (take n s) p = true -> startswith s p = true.
Proof.
  revert n s. induction p as [|c p IH]; intros n s H; [done|].
  destruct n as [|n], s as [|d s]; try done.
  simpl in H. apply andb_prop in H as [Hc Hp]. simpl. rewrite Hc. simpl.
  by apply (IH n).
Qed.

Lemma startswith_app_l (s e p : text) :
  startswith s p = true -> startswith (s ++ e) p = true.
Proof.
  revert s. induction p as [|c p IH]; intros s H; [done|].
  destruct s as [|d s]; [done|]. simpl in *.
  apply andb_prop in H as [Hc Hp]. rewrite Hc. simpl. by apply IH.
Qed.

Lemma contains_app_l (sub s e : text) :
  contains sub s = true -> contains sub (s ++ e) = true.
Proof.
  induction s as [|c s IH]; intros H.
  - simpl in H. rewrite orb_false_r in H. apply startswith_nil_l in H as ->.
    by destruct e.
  - apply contains_cons_inv in H as [H|H].
    + apply contains_here. by apply (startswith_app_l (c :: s)).
    + apply (contains_cons _ (s ++ e)). by apply IH.
Qed.

(** [find] gives -1 exactly when the text is not there, and otherwise the
    place of its first occurrence. *)
Lemma find_from_spec (i : Z) (sub s : text) :
  sub <> [] ->
  (find_from i sub s = -1 /\ contains sub s = false)
  \/ (exists k : nat,
        find_from i sub s = i + Z.of_nat k
        /\ (k <= length s)%nat
        /\ startswith (drop k s) sub = true
        /\ contains sub (take k s) = false).
Proof.
  intros Hsub. revert i. induction s as [|c s IH]; intros i.
  - left. destruct sub; [done|]. done.
  - cbn [find_from contains].
    destruct (startswith (c :: s) sub) eqn:Hhere.
    + right. exists 0%nat. split; [lia|]. split; [lia|]. split; [done|].
      destruct sub; [done|]. done.
    + destruct (IH (i + 1)) as [[Hf Hc]|(k & Hf & Hk & Hs & Hc)].
      * left. by rewrite Hf, Hc.
      * right. exists (S k). split; [lia|]. split; [simpl; lia|]. split; [done|].
        change (take (S k) (c :: s)) with (c :: take k s). cbn [contains].
        rewrite Hc, orb_false_r.
        destruct (startswith (c :: take k s) sub) eqn:Ht; [|done].
        apply (startswith_take_inv (S k) (c :: s)) in Ht. congruence.
Qed.

Lemma find_spec (s sub : text) :
  sub <> [] ->
  (find s sub = -1 /\ contains sub s = false)
  \/ (exists k : nat,
        find s sub = Z.of_nat k
        /\ (k <= length s)%nat
        /\ startswith (drop k s) sub = true
        /\ contains sub (take k s) = false).
Proof. intros Hsub. apply (find_from_spec 0 sub s Hsub). Qed.

Lemma startswith_drop_contains (k : nat) (s sub : text) :
  startswith (drop k s) sub = true -> contains sub s = true.
Proof.
  revert s. induction k as [|k IH]; intros s H.
  - by apply contains_here.
  - destruct s as [|c s]; [by apply contains_here|]. apply contains_cons. by apply IH.
Qed.

Lemma replace1_spec_from (i : Z) (s old new : text) :
  old <> [] ->
  (contains old s = false /\ replace1 s old new = s)
  \/ (exists k : nat,
        find_from i old s = i + Z.of_nat k
        /\ startswith (drop k s) old = true
        /\ contains old (take k s) = false
        /\ replace1 s old new = take k s ++ new ++ drop (k + length old) s).
Proof.
  intros Hold. revert i. induction s as [|c s IH]; intros i.
  - left. destruct old; [done|]. done.
  - cbn [find_from contains replace1].
    destruct (startswith (c :: s) old) eqn:Hhere.
    + right. exists 0%nat. split; [lia|]. split; [done|]. split; [|done].
      destruct old; [done|]. done.
    + destruct (IH (i + 1)) as [[Hc Hr]|(k & Hf & Hs & Hc & Hr)].
      * left. by rewrite Hc, Hr.
      * right. exists (S k). split; [lia|]. split; [done|]. split.
        -- change (take (S k) (c :: s)) with (c :: take k s). cbn [contains].
           rewrite Hc, orb_false_r.
           destruct (startswith (c :: take k s) old) eqn:Ht; [|done].
           apply (startswith_take_inv (S k) (c :: s)) in Ht. congruence.
        -- rewrite Hr. done.
Qed.

(** [replace(old, new, 1)] leaves a text without [old] as it is, and
    otherwise replaces the first occurrence and nothing else. *)
Lemma replace1_spec (s old new : text) :
  old <> [] ->
  (contains old s = false /\ replace1 s old new = s)
  \/ (exists k : nat,
        find s old = Z.of_nat k
        /\ startswith (drop k s) old = true
        /\ contains old (take k s) = false
        /\ replace1 s old new = take k s ++ new ++ drop (k + length old) s).
Proof. intros Hold. apply (replace1_spec_from 0 s old new Hold). Qed.

End Find.

(** ** split-template-blueprint.py: the media block and the head of a block *)

Section BlueprintBlocks.

Import SplitTemplateBlueprint.

Lemma splitlines_nil (k : bool) (s : text) : splitlines k s = [] -> s = [].
Proof.
  destruct s as [|c s]; [done|]. simpl.
  destruct (Ascii.eqb c cr).
  - destruct s as [|d s]; [done|]. by destruct (Ascii.eqb d nl).
  - destruct (is_linebreak c); [done|]. by destruct (splitlines k s).
Qed.

Lemma splitlines_keepends_lookup_le (n : nat) (s : text) (i : nat) (l : text) :
  (length s <= n)%nat ->
  splitlines false s !! i = Some l ->
  exists e, splitlines true s !! i = Some (l ++ e).
Proof.
  revert s i l. induction n as [|n IH]; intros s i l Hn.
  - destruct s; [done|simpl in Hn; lia].
  - destruct s as [|c s]; [done|]. simpl in Hn. cbn [splitlines].
    destruct (Ascii.eqb c cr).
    + destruct s as [|d s].
      * destruct i; [|done]. intros [= <-]. by exists [c].
      * simpl in Hn. destruct (Ascii.eqb d nl).
        -- destruct i as [|i]; [intros [= <-]; by exists [c; d]|].
           simpl. apply IH. lia.
        -- destruct i as [|i]; [intros [= <-]; by exists [c]|].
           simpl. apply (IH (d :: s)). simpl. lia.
    + destruct (is_linebreak c).
      * destruct i as [|i]; [intros [= <-]; by exists [c]|].
        simpl. apply IH. lia.
      * destruct (splitlines false s) as [|l0 ls] eqn:Hf.
        -- apply splitlines_nil in Hf as ->. simpl.
           destruct i; [|done]. intros [= <-]. exists []. by rewrite app_nil_r.
        -- destruct (splitlines true s) as [|l1 ls1] eqn:Ht.
           { apply splitlines_nil in Ht as ->. done. }
           destruct i as [|i]; simpl.
           ++ intros [= <-].
              destruct (IH s 0%nat l0 ltac:(lia)) as [e He]; [by rewrite Hf|].
              rewrite Ht in He. injection He as ->. by exists e.
           ++ intros Hl.
              destruct (IH s (S i) l ltac:(lia)) as [e He]; [by rewrite Hf|].
              rewrite Ht in He. by exists e.
Qed.

(** Line [i] with its line end kept is line [i] without it, and the line
    end. *)
Lemma splitlines_keepends_lookup (s : text) (i : nat) (l : text) :
  splitlines false s !! i = Some l ->
  exists e, splitlines true s !! i = Some (l ++ e).
Proof. by apply (splitlines_keepends_lookup_le (length s)). Qed.

Lemma renderer_comment_nonempty : txt "// ─── JSON Blueprint Renderer" <> [].
Proof. done. Qed.

End BlueprintBlocks.

(** X7.  The media file of split-template-blueprint.py never holds the
    comment that opens the renderer section: the media block is cut at the
    first occurrence of that comment, so what is written is the block up to
    there, and what is left out starts with the comment; a block without
    the comment is taken whole. *)
Theorem blueprint_media_cut_at_renderer_comment (src : text)
    (b : SplitTemplateBlueprint.boundaries) :
  contains (txt "// ─── JSON Blueprint Renderer")
    (SplitTemplateBlueprint.media_content_raw src b) = false
  /\ exists rest,
       SplitTemplateBlueprint.media_block src b
       = SplitTemplateBlueprint.media_content_raw src b ++ rest
       /\ (rest = []
           \/ startswith rest (txt "// ─── JSON Blueprint Renderer") = true).
Proof.
  unfold SplitTemplateBlueprint.media_content_raw. cbv zeta.
  destruct (find_spec (SplitTemplateBlueprint.media_block src b)
              (txt "// ─── JSON Blueprint Renderer") renderer_comment_nonempty)
    as [[Hf Hc]|(k & Hf & Hk & Hs & Hc)]; rewrite Hf.
  - simpl. split; [done|]. exists []. split; [by rewrite app_nil_r|by left].
  - assert ((Z.of_nat k =? -1) = false) as -> by (apply Z.eqb_neq; lia). rewrite Nat2Z.id.
    split; [done|].
    exists (drop k (SplitTemplateBlueprint.media_block src b)).
    split; [by rewrite take_drop|by right].
Qed.

(** X8.  A block that split-template-blueprint.py cuts from a found marker
    up to a later line starts with the line that holds the marker:
    [find_line] counts lines without their line ends, [extract_lines] cuts
    lines with them, and the two counts agree. *)
Theorem blueprint_block_starts_with_marker_line (pattern src : text) (i stop : nat) :
  SplitTemplateBlueprint.find_line pattern src = Ok i ->
  (i < stop)%nat ->
  exists line rest,
    SplitTemplateBlueprint.all_lines src !! i = Some line
    /\ contains pattern line = true
    /\ SplitTemplateBlueprint.extract_lines src i stop = line ++ rest.
Proof.
  intros Hfind Hlt.
  apply blueprint_find_line_index, first_index_Some in Hfind as [(l & Hl & Hp) _].
  destruct (splitlines_keepends_lookup src i l Hl) as [e He].
  exists (l ++ e), (concat (drop (S i) (take stop (SplitTemplateBlueprint.all_lines src)))).
  split; [done|]. split; [by apply contains_app_l|].
  unfold SplitTemplateBlueprint.extract_lines, join_empty, slice.
  rewrite (drop_S _ (l ++ e) i); [done|].
  by rewrite lookup_take_lt.
Qed.

Lemma blueprint_block_starts_with_marker_line_witness :
  exists line rest,
    SplitTemplateBlueprint.all_lines Examples.blueprint_src !! 3%nat = Some line
    /\ contains SplitTemplateBlueprint.media_marker line = true
    /\ SplitTemplateBlueprint.extract_lines Examples.blueprint_src 3 4 = line ++ rest.
Proof.
  apply (blueprint_block_starts_with_marker_line
           SplitTemplateBlueprint.media_marker Examples.blueprint_src 3 4).
  - vm_compute; reflexivity.
  - lia.
Defined.

(** ** update-route.py: the block it removes and the imports it adds *)

Section RouteBlock.

Import UpdateRoute.

Lemma match_block_here_Some (s : text) (n : nat) :
  match_block_here s = Some n ->
  startswith s block_open = true
  /\ (length block_open <= n)%nat
  /\ startswith (drop n s) block_close = true
  /\ contains block_close (take (n - length block_open) (drop (length block_open) s))
     = false.
Proof.
  unfold match_block_here. destruct (startswith s block_open); [|done].
  destruct (find_spec (drop (length block_open) s) block_close ltac:(done))
    as [[Hf Hc]|(k & Hf & Hk & Hs & Hc)]; rewrite Hf.
  - done.
  - assert ((Z.of_nat k =? -1) = false) as -> by (apply Z.eqb_neq; lia). rewrite Nat2Z.id.
    intros Heq. assert (Hn : n = (length block_open + k)%nat) by congruence.
    subst n. clear Heq. split; [done|]. split; [lia|].
    replace (length block_open + k - length block_open)%nat with k by lia.
    split; [|done]. by rewrite <- drop_drop.
Qed.

Lemma search_block_from_Some (i : nat) (s : text) (a e : nat) :
  search_block_from i s = Some (a, e) ->
  exists j n,
    a = (i + j)%nat /\ e = (a + n)%nat
    /\ match_block_here (drop j s) = Some n
    /\ (forall j', (j' < j)%nat -> match_block_here (drop j' s) = None).
Proof.
  revert i. induction s as [|c s IH]; intros i; cbn [search_block_from].
  - destruct (match_block_here []) as [n|] eqn:Hm; [|done].
    intros [= <- <-]. exists 0%nat, n. repeat split; [lia|done|lia].
  - destruct (match_block_here (c :: s)) as [n|] eqn:Hm.
    + intros [= <- <-]. exists 0%nat, n. repeat split; [lia|done|lia].
    + intros (j & n & -> & -> & Hj & Hmin)%IH.
      exists (S j), n. repeat split; [lia|done|].
      intros [|j'] Hj'; [done|]. apply Hmin. lia.
Qed.

End RouteBlock.

(** X9.  The block update-route.py removes is the first and the shortest
    one: it starts at the leftmost place where the opening comment stands
    and a closing line follows, it ends at the first closing line after
    the comment, the closing line itself is not removed, and it is still
    in the text that is written. *)
Theorem route_removes_first_shortest_block (content : text) (start stop : nat) :
  UpdateRoute.search_block content = Some (start, stop) ->
  startswith (drop start content) UpdateRoute.block_open = true
  /\ (start + length UpdateRoute.block_open <= stop)%nat
  /\ startswith (drop stop content) UpdateRoute.block_close = true
  /\ contains UpdateRoute.block_close
       (take (stop - (start + length UpdateRoute.block_open))
             (drop (start + length UpdateRoute.block_open) content)) = false
  /\ (forall j, (j < start)%nat ->
        UpdateRoute.match_block_here (drop j content) = None)
  /\ contains UpdateRoute.block_close (take start content ++ drop stop content) = true.
Proof.
  intros (j & n & -> & -> & Hm & Hmin)%search_block_from_Some.
  apply match_block_here_Some in Hm as (Hopen & Hn & Hclose & Hlazy).
  rewrite drop_drop in Hclose, Hlazy. rewrite !Nat.add_0_l.
  split; [done|]. split; [lia|]. split; [done|]. split.
  - by replace (j + n - (j + length UpdateRoute.block_open))%nat
      with (n - length UpdateRoute.block_open)%nat by lia.
  - split; [done|]. by apply contains_app_r, contains_here.
Qed.

Lemma route_removes_first_shortest_block_witness :
  startswith (drop 1 (txt "x" ++ UpdateRoute.block_open ++ txt "gone"
                      ++ UpdateRoute.block_close ++ txt " = 1"))
    UpdateRoute.block_open = true
  /\ contains UpdateRoute.block_close
       (take 1 (txt "x" ++ UpdateRoute.block_open ++ txt "gone"
                ++ UpdateRoute.block_close ++ txt " = 1")
        ++ drop 62 (txt "x" ++ UpdateRoute.block_open ++ txt "gone"
                    ++ UpdateRoute.block_close ++ txt " = 1")) = true.
Proof.
  destruct (route_removes_first_shortest_block
              (txt "x" ++ UpdateRoute.block_open ++ txt "gone"
               ++ UpdateRoute.block_close ++ txt " = 1") 1 62)
    as (Hopen & _ & _ & _ & _ & Hkept).
  - vm_compute; reflexivity.
  - split; [exact Hopen|exact Hkept].
Defined.

(** X10.  update-route.py adds its imports once, directly below the first
    occurrence of the import anchor, and changes nothing else in that
    step: the text before the anchor, the anchor and the text after it are
    as they were. *)
Theorem route_imports_go_below_first_anchor (content : text) :
  contains UpdateRoute.old_anchor content = true ->
  exists k : nat,
    find content UpdateRoute.old_anchor = Z.of_nat k
    /\ contains UpdateRoute.old_anchor (take k content) = false
    /\ content
       = take k content ++ UpdateRoute.old_anchor
         ++ drop (k + length UpdateRoute.old_anchor) content
    /\ replace1 content UpdateRoute.old_anchor
         (UpdateRoute.old_anchor ++ UpdateRoute.new_imports)
       = take k content ++ UpdateRoute.old_anchor ++ UpdateRoute.new_imports
         ++ drop (k + length UpdateRoute.old_anchor) content.
Proof.
  intros Hin.
  destruct (replace1_spec content UpdateRoute.old_anchor
              (UpdateRoute.old_anchor ++ UpdateRoute.new_imports) ltac:(done))
    as [[Hc _]|(k & Hf & Hs & Hc & Hr)]; [congruence|].
  exists k. split; [done|]. split; [done|]. split.
  - apply startswith_take in Hs.
    rewrite <- (take_drop k content) at 1. f_equal.
    rewrite <- (take_drop (length UpdateRoute.old_anchor) (drop k content)) at 1.
    by rewrite Hs, drop_drop.
  - by rewrite Hr, <- app_assoc.
Qed.

Lemma route_imports_go_below_first_anchor_witness :
  exists k : nat,
    find (txt "// head" ++ [nl] ++ UpdateRoute.old_anchor ++ txt "const x = 1")
      UpdateRoute.old_anchor = Z.of_nat k
    /\ contains UpdateRoute.old_anchor
         (take k (txt "// head" ++ [nl] ++ UpdateRoute.old_anchor ++ txt "const x = 1"))
       = false
    /\ txt "// head" ++ [nl] ++ UpdateRoute.old_anchor ++ txt "const x = 1"
       = take k (txt "// head" ++ [nl] ++ UpdateRoute.old_anchor ++ txt "const x = 1")
         ++ UpdateRoute.old_anchor
         ++ drop (k + length UpdateRoute.old_anchor)
              (txt "// head" ++ [nl] ++ UpdateRoute.old_anchor ++ txt "const x = 1")
    /\ replace1 (txt "// head" ++ [nl] ++ UpdateRoute.old_anchor ++ txt "const x = 1")
         UpdateRoute.old_anchor (UpdateRoute.old_anchor ++ UpdateRoute.new_imports)
       = take k (txt "// head" ++ [nl] ++ UpdateRoute.old_anchor ++ txt "const x = 1")
         ++ UpdateRoute.old_anchor ++ UpdateRoute.new_imports
         ++ drop (k + length UpdateRoute.old_anchor)
              (txt "// head" ++ [nl] ++ UpdateRoute.old_anchor ++ txt "const x = 1").
Proof.
  apply (route_imports_go_below_first_anchor
           (txt "// head" ++ [nl] ++ UpdateRoute.old_anchor ++ txt "const x = 1")).
  vm_compute; reflexivity.
Defined.

(** ** cleanup-html-simple.py: the lines of the indentation pass *)

Section IndentationLines.

Import CleanupHtmlSimple.

Lemma fix_lines_lookup (k : nat) (lines : list text) (i : nat) (line : text) :
  lines !! i = Some line ->
  exists out,
    fix_lines k lines !! i = Some out
    /\ ((strip line = [] /\ out = [])
        \/ (strip line <> [] /\ exists n, out = indent n ++ strip line)).
Proof.
  revert k i. induction lines as [|l rest IH]; intros k i Hi; [done|].
  cbn [fix_lines]. destruct i as [|i]; simpl in Hi.
  - injection Hi as ->. destruct (strip line) as [|c t] eqn:Hs.
    + exists []. split; [done|]. by left.
    + eexists. split; [done|]. right. split; [done|]. eauto.
  - destruct (strip l) as [|c t]; simpl; by apply IH.
Qed.

Lemma indent_length (n : nat) : length (indent n) = (2 * n)%nat.
Proof.
  unfold indent. induction n as [|n IH]; [done|].
  change (replicate (S n) (txt "  ")) with (txt "  " :: replicate n (txt "  ")).
  cbn [concat]. rewrite length_app, IH. simpl. lia.
Qed.

End IndentationLines.

(** X11.  The indentation pass of cleanup-html-simple.py keeps the number
    of lines, writes an empty line for every line that is blank, and
    writes every other line as an even number of spaces followed by the
    stripped text of the line. *)
Theorem cleanup_indentation_line_by_line (content : text) (i : nat) (line : text) :
  split_on nl content !! i = Some line ->
  length (split_on nl (CleanupHtmlSimple.fix_indentation content))
  = length (split_on nl content)
  /\ exists out,
       split_on nl (CleanupHtmlSimple.fix_indentation content) !! i = Some out
       /\ ((strip line = [] /\ out = [])
           \/ (strip line <> []
               /\ exists n, out = CleanupHtmlSimple.indent n ++ strip line
                            /\ length out = (2 * n + length (strip line))%nat)).
Proof.
  intros Hi. rewrite split_fix_indentation, fix_lines_length. split; [done|].
  destruct (fix_lines_lookup 0 _ i line Hi) as (out & Hout & Hshape).
  exists out. split; [done|].
  destruct Hshape as [?|(Hne & n & ->)]; [by left|]. right. split; [done|].
  exists n. split; [done|]. by rewrite length_app, indent_length.
Qed.

Lemma cleanup_indentation_line_by_line_witness :
  length (split_on nl (CleanupHtmlSimple.fix_indentation Examples.tidy_page))
  = length (split_on nl Examples.tidy_page)
  /\ exists out,
       split_on nl (CleanupHtmlSimple.fix_indentation Examples.tidy_page) !! 1%nat
       = Some out
       /\ ((strip (txt "<li>one</li>") = [] /\ out = [])
           \/ (strip (txt "<li>one</li>") <> []
               /\ exists n, out = CleanupHtmlSimple.indent n ++ strip (txt "<li>one</li>")
                            /\ length out
                               = (2 * n + length (strip (txt "<li>one</li>")))%nat)).
Proof.
  apply (cleanup_indentation_line_by_line Examples.tidy_page 1 (txt "<li>one</li>")).
  vm_compute; reflexivity.
Defined.

(** ** update_nav_classes.py: the value returned and the count of [main] *)

Section NavMain.

Import UpdateNavClasses Mains.

Lemma nav_update_fst (file_path : string) (fs : store) :
  (update_navigation_classes file_path fs).1 = nav_changes fs file_path.
Proof.
  unfold update_navigation_classes, nav_changes, write_back.
  destruct (fs !! file_path); [|done]. by case_bool_decide.
Qed.

Lemma nav_update_lookup (file_path p : string) (fs : store) :
  (update_navigation_classes file_path fs).2 !! p
  = if decide (file_path = p) then substitute <$> fs !! p else fs !! p.
Proof.
  unfold update_navigation_classes, write_back.
  destruct (fs !! file_path) as [c|] eqn:Hc.
  - case_bool_decide as Hne; simpl.
    + rewrite write_file_lookup. case_decide; [subst; by rewrite Hc|done].
    + case_decide; [|done]. subst. rewrite Hc. simpl.
      destruct (decide (substitute c = c)) as [Heq|Hn]; [by rewrite Heq|done].
  - simpl. case_decide; [|done]. subst. by rewrite Hc.
Qed.

Lemma nav_changes_after_other (file_path p : string) (fs : store) :
  file_path <> p ->
  nav_changes (update_navigation_classes file_path fs).2 p = nav_changes fs p.
Proof.
  intros Hne. unfold nav_changes. rewrite nav_update_lookup. by case_decide.
Qed.

Lemma filter_ext_elem {A} (P1 P2 : A -> Prop)
    `{!forall x, Decision (P1 x)} `{!forall x, Decision (P2 x)} (l : list A) :
  Forall (fun x => P1 x <-> P2 x) l -> filter P1 l = filter P2 l.
Proof.
  induction 1 as [|x l Hx _ IH]; [done|]. rewrite !filter_cons, IH.
  destruct (decide (P1 x)), (decide (P2 x)); tauto.
Qed.

Lemma update_all_spec (html_files : list string) (n : nat) (fs : store) :
  NoDup html_files ->
  (update_all html_files n fs).1
  = (n + length (filter (fun p => nav_changes fs p = true) html_files))%nat
  /\ forall p,
       (update_all html_files n fs).2 !! p
       = if decide (p ∈ html_files) then substitute <$> fs !! p else fs !! p.
Proof.
  intros Hnd. revert n fs.
  induction Hnd as [|f rest Hf Hnd IH]; intros n fs; cbn [update_all].
  - split; [simpl; lia|]. intros p. case_decide as Hp; [|done].
    by apply elem_of_nil in Hp.
  - destruct (IH (if (update_navigation_classes f fs).1 then S n else n)
                (update_navigation_classes f fs).2) as [Hcount Hstore].
    split.
    + rewrite Hcount, nav_update_fst.
      assert (Hrest : filter (fun p => nav_changes (update_navigation_classes f fs).2 p = true)
                        rest
                      = filter (fun p => nav_changes fs p = true) rest).
      { apply filter_ext_elem. apply Forall_forall. intros p Hp.
        rewrite nav_changes_after_other; [done|]. intros ->. done. }
      rewrite Hrest, filter_cons.
      destruct (nav_changes fs f) eqn:Hc; case_decide; simpl; try done; lia.
    + intros p. rewrite Hstore, nav_update_lookup.
      destruct (decide (p ∈ rest)) as [Hp|Hp], (decide (f = p)) as [Heq|Hne],
        (decide (p ∈ f :: rest)) as [Hp'|Hp'];
        subst; try done; exfalso; rewrite elem_of_cons in Hp'; intuition congruence.
Qed.

End NavMain.

(** X12.  [update_navigation_classes] returns [True] exactly when it has
    changed the files: a call that returns [False] leaves every file as it
    was (also when the file could not be read), and a call that returns
    [True] has written a content that differs from the one it read. *)
Theorem nav_update_returns_whether_changed (file_path : string) (fs : store) :
  ((UpdateNavClasses.update_navigation_classes file_path fs).1 = false
   <-> (UpdateNavClasses.update_navigation_classes file_path fs).2 = fs)
  /\ ((UpdateNavClasses.update_navigation_classes file_path fs).1 = true
      <-> exists c, fs !! file_path = Some c
                    /\ UpdateNavClasses.substitute c <> c
                    /\ (UpdateNavClasses.update_navigation_classes file_path fs).2
                       = <[file_path := UpdateNavClasses.substitute c]> fs).
Proof.
  unfold UpdateNavClasses.update_navigation_classes, UpdateNavClasses.write_back.
  destruct (fs !! file_path) as [c|] eqn:Hc.
  - case_bool_decide as Hne; simpl.
    + split.
      * split; [done|]. intros Heq. apply (f_equal (fun m => m !! file_path)) in Heq.
        unfold write_file in Heq. rewrite lookup_insert_eq, Hc in Heq. congruence.
      * split; [|done]. intros _. exists c. done.
    + split; [done|]. split; [done|]. intros (c' & [= <-] & Hne' & _). done.
  - simpl. split; [done|]. split; [done|]. by intros (c' & ? & _).
Qed.

(** X13.  The count that [main] of update_nav_classes.py prints is the
    number of files of its list that are there and that the substitutions
    change, when no file is listed twice; afterwards every listed file
    holds its substituted content and every other file is as it was. *)
Theorem nav_main_counts_changed_files (html_files : list string) (fs : store) :
  NoDup html_files ->
  (Mains.update_nav_main html_files fs).1
  = length (filter (fun p => nav_changes fs p = true) html_files)
  /\ forall p,
       (Mains.update_nav_main html_files fs).2 !! p
       = if decide (p ∈ html_files)
         then UpdateNavClasses.substitute <$> fs !! p
         else fs !! p.
Proof.
  intros Hnd. unfold Mains.update_nav_main.
  destruct (update_all_spec html_files 0 fs Hnd) as [Hcount Hstore].
  split; [by rewrite Hcount|done].
Qed.

Lemma nav_main_counts_changed_files_witness :
  (Mains.update_nav_main ["a.html"; "b.html"; "missing.html"]%string
     (<["a.html"%string := Examples.plain_page]>
        {["b.html"%string := txt "<li class=" ++ q "nav__item" ++ txt ">"]})).1
  = 1%nat.
Proof.
  destruct (nav_main_counts_changed_files
              ["a.html"; "b.html"; "missing.html"]%string
              (<["a.html"%string := Examples.plain_page]>
                 {["b.html"%string := txt "<li class=" ++ q "nav__item" ++ txt ">"]}))
    as [Hcount _].
  - repeat constructor; rewrite ?elem_of_cons, ?elem_of_nil; intuition discriminate.
  - rewrite Hcount. vm_compute. reflexivity.
Defined.

(** ** [re.sub] of a run of one character class by one character *)

Section SubRun.

Import Re.

Variable p : ascii -> bool.
Variable h : ascii.

Lemma greedy_total {R} (k : text -> option R) (r : text -> R) (s : text) :
  (forall s', k s' = Some (r s')) ->
  exists m, greedy p k s = Some (m, r (drop_while p s)).
Proof.
  intros Hk. induction s as [|c s [m IH]]; cbn [greedy drop_while].
  - rewrite Hk. by exists [].
  - rewrite Hk. destruct (p c); [|by exists []]. rewrite IH. by eexists.
Qed.

Lemma match_here_run (s : text) :
  match_here [Plain (Plus p)] s
  = match s with
    | c :: s' => if p c then Some ([], drop_while p s') else None
    | [] => None
    end.
Proof.
  destruct s as [|c s]; [done|]. cbn [match_here match_atom].
  destruct (p c); [|done].
  destruct (greedy_total (fun s' => Some (@nil text, s')) (fun s' => ([], s')) s)
    as [m ->]; done.
Qed.

Lemma sub_go_skip (k : nat) (s : text) :
  sub_go [Plain (Plus p)] [Txt [h]] k s = sub_go [Plain (Plus p)] [Txt [h]] 0 (drop k s).
Proof.
  revert k. induction s as [|c s IH]; intros k.
  - destruct k; [done|]. cbn [sub_go drop]. by rewrite match_here_run.
  - destruct k as [|k]; [done|]. cbn [sub_go drop]. apply IH.
Qed.

Lemma drop_while_length {A} (q : A -> bool) (l : list A) :
  drop (length l - length (drop_while q l)) l = drop_while q l.
Proof.
  destruct (drop_while_drop q l) as (j & Hj & ->).
  rewrite length_drop. f_equal. lia.
Qed.

Lemma sub_run_nil : sub [Plain (Plus p)] [Txt [h]] [] = [].
Proof. unfold sub. cbn [sub_go]. by rewrite match_here_run. Qed.

Lemma sub_run_skip (c : ascii) (s : text) :
  p c = false -> sub [Plain (Plus p)] [Txt [h]] (c :: s) = c :: sub [Plain (Plus p)] [Txt [h]] s.
Proof.
  intros Hc. unfold sub. cbn [sub_go]. rewrite match_here_run. by rewrite Hc.
Qed.

Lemma sub_run_hit (c : ascii) (s : text) :
  p c = true -> sub [Plain (Plus p)] [Txt [h]] (c :: s) = h :: sub [Plain (Plus p)] [Txt [h]] (drop_while p s).
Proof.
  intros Hc. unfold sub. cbn [sub_go]. rewrite match_here_run, Hc.
  destruct (drop_while_drop p s) as (j & Hj & Hd).
  assert (Hlen : (length (c :: s) - length (drop_while p s))%nat
                 = S (length s - length (drop_while p s))).
  { rewrite Hd, length_drop. simpl. lia. }
  rewrite Hlen. cbn [expand map concat app].
  by rewrite sub_go_skip, drop_while_length.
Qed.

Lemma drop_while_head {A} (q : A -> bool) (l : list A) (x : A) :
  head (drop_while q l) = Some x -> q x = false.
Proof.
  induction l as [|y l IH]; simpl; [done|].
  destruct (q y) eqn:Hy; [done|]. by intros [= <-].
Qed.

(** An induction that follows the two equations above. *)
Lemma sub_run_ind (P : text -> Prop) :
  P [] ->
  (forall c s, p c = false -> P s -> P (c :: s)) ->
  (forall c s, p c = true -> P (drop_while p s) -> P (c :: s)) ->
  forall s, P s.
Proof.
  intros Hnil Hskip Hhit s.
  assert (H : forall n s, (length s <= n)%nat -> P s); [|by apply (H (length s))].
  clear s. induction n as [|n IH]; intros s Hn.
  - destruct s; [done|simpl in Hn; lia].
  - destruct s as [|c s]; [done|]. simpl in Hn. destruct (p c) eqn:Hc.
    + apply Hhit; [done|]. apply IH.
      destruct (drop_while_drop p s) as (j & Hj & ->). rewrite length_drop. lia.
    + apply Hskip; [done|]. apply IH. lia.
Qed.

(** Every character of the result is [h] or a character of the text that
    is outside the class. *)
Lemma sub_run_elem_of (s : text) (c : ascii) :
  c ∈ sub [Plain (Plus p)] [Txt [h]] s -> c = h \/ (c ∈ s /\ p c = false).
Proof.
  revert s. apply (sub_run_ind (fun s => c ∈ sub [Plain (Plus p)] [Txt [h]] s -> _)).
  - rewrite sub_run_nil. intros H. by apply elem_of_nil in H.
  - intros d s Hd IH. rewrite sub_run_skip by done.
    intros [->|H]%elem_of_cons.
    + right. split; [left|done].
    + destruct (IH H) as [?|[? ?]]; [by left|]. right. split; [by right|done].
  - intros d s Hd IH. rewrite sub_run_hit by done.
    intros [->|H]%elem_of_cons; [by left|].
    destruct (IH H) as [?|[Hin ?]]; [by left|]. right. split; [|done].
    right. by apply elem_of_drop_while in Hin.
Qed.

(** The result starts as the text does, when the text starts outside the
    class. *)
Lemma sub_run_head (s : text) (c : ascii) :
  head s = Some c -> p c = false -> head (sub [Plain (Plus p)] [Txt [h]] s) = Some c.
Proof.
  destruct s as [|d s]; [done|]. intros [= ->] Hc. by rewrite sub_run_skip.
Qed.

Lemma drop_while_last {A} (q : A -> bool) (l : list A) (x : A) :
  last l = Some x -> q x = false -> last (drop_while q l) = Some x.
Proof.
  induction l as [|y l IH]; [done|]. intros Hl Hx. simpl.
  destruct (q y) eqn:Hy; [|done].
  destruct l as [|z l]; [simpl in Hl; congruence|]. by apply IH.
Qed.

(** And it ends as the text does, when the text ends outside the class. *)
Lemma sub_run_last (s : text) (c : ascii) :
  last s = Some c -> p c = false -> last (sub [Plain (Plus p)] [Txt [h]] s) = Some c.
Proof.
  intros Hl Hc. revert s Hl.
  apply (sub_run_ind (fun s => last s = Some c -> last (sub [Plain (Plus p)] [Txt [h]] s) = Some c)).
  - done.
  - intros d s Hd IH Hl. rewrite sub_run_skip by done.
    destruct s as [|e s]; [by rewrite sub_run_nil|].
    specialize (IH Hl). destruct (sub [Plain (Plus p)] [Txt [h]] (e :: s)); [done|]. done.
  - intros d s Hd IH Hl. rewrite sub_run_hit by done.
    destruct s as [|e s]; [simpl in Hl; congruence|].
    specialize (IH (drop_while_last p (e :: s) c Hl Hc)).
    destruct (sub [Plain (Plus p)] [Txt [h]] (drop_while p (e :: s))); [done|]. done.
Qed.

Hypothesis h_in_class : p h = true.

(** No two [h] stand side by side in the result. *)
Lemma sub_run_no_double (s : text) : contains [h; h] (sub [Plain (Plus p)] [Txt [h]] s) = false.
Proof.
  assert (Hne : forall c, p c = false -> Ascii.eqb h c = false).
  { intros c Hc. destruct (Ascii.eqb h c) eqn:Heq; [|done].
    apply Ascii.eqb_eq in Heq as <-. congruence. }
  revert s. apply sub_run_ind.
  - by rewrite sub_run_nil.
  - intros c s Hc IH. rewrite sub_run_skip by done.
    cbn [contains startswith]. by rewrite (Hne c Hc), IH.
  - intros c s Hc IH. rewrite sub_run_hit by done.
    cbn [contains]. rewrite IH, orb_false_r.
    cbn [startswith]. rewrite Ascii.eqb_refl.
    destruct (drop_while p s) as [|d rest] eqn:Hd.
    + by rewrite sub_run_nil.
    + assert (p d = false) by (apply (drop_while_head p s); by rewrite Hd).
      rewrite sub_run_skip by done. simpl. by rewrite (Hne d).
Qed.

End SubRun.

(** ** The slug of a label *)

Section Slug.

Import Re RebuildIsced.

Lemma elem_of_rev_iff {A} (x : A) (l : list A) : x ∈ rev l <-> x ∈ l.
Proof. by rewrite !list_elem_of_In, <- in_rev. Qed.

Lemma strip_hyphens_elem_of (s : text) (c : ascii) :
  c ∈ strip_hyphens s -> c ∈ s.
Proof.
  unfold strip_hyphens. rewrite elem_of_rev_iff. intros H.
  apply elem_of_drop_while in H. rewrite elem_of_rev_iff in H.
  by apply elem_of_drop_while in H.
Qed.

Lemma eqb_hyphen_false (c : ascii) : Ascii.eqb hyphen c = false <-> c <> hyphen.
Proof. rewrite Ascii.eqb_neq. split; congruence. Qed.

Lemma strip_hyphens_last (s : text) (c : ascii) :
  last (strip_hyphens s) = Some c -> c <> hyphen.
Proof.
  unfold strip_hyphens. rewrite last_rev. intros H.
  by apply drop_while_head, eqb_hyphen_false in H.
Qed.

Lemma strip_hyphens_head (s : text) (c : ascii) :
  head (strip_hyphens s) = Some c -> c <> hyphen.
Proof.
  unfold strip_hyphens.
  destruct (drop_while (Ascii.eqb hyphen) s) as [|d s'] eqn:Hd; [done|].
  assert (Hh : Ascii.eqb hyphen d = false).
  { apply (drop_while_head _ s). by rewrite Hd. }
  assert (Hl : last (rev (d :: s')) = Some d) by by rewrite last_rev.
  apply (drop_while_last (Ascii.eqb hyphen)) in Hl; [|done].
  rewrite <- (rev_involutive (drop_while _ (rev (d :: s')))) in Hl.
  rewrite last_rev in Hl. rewrite Hl. intros [= <-]. by apply eqb_hyphen_false.
Qed.

Lemma is_lower_alnum_hyphen : is_lower_alnum hyphen = false.
Proof. reflexivity. Qed.

End Slug.

(** X14.  The slug that [slugify] returns is never empty, holds only the
    lower-case letters a to z, the digits and the hyphen, neither starts nor
    ends with a hyphen, and has no two hyphens side by side. *)
Theorem slugify_shape (ascii_fold : text -> text) (t : text) :
  RebuildIsced.slugify ascii_fold t <> []
  /\ (forall c, c ∈ RebuildIsced.slugify ascii_fold t -> RebuildIsced.is_lower_alnum c = true \/ c = RebuildIsced.hyphen)
  /\ head (RebuildIsced.slugify ascii_fold t) <> Some RebuildIsced.hyphen
  /\ last (RebuildIsced.slugify ascii_fold t) <> Some RebuildIsced.hyphen
  /\ contains [RebuildIsced.hyphen; RebuildIsced.hyphen] (RebuildIsced.slugify ascii_fold t) = false.
Proof.
  unfold RebuildIsced.slugify.
  set (t0 := map RebuildIsced.lower_char (ascii_fold t)).
  set (s1 := Re.sub [Re.Plain (Re.Plus (fun c => negb (RebuildIsced.is_lower_alnum c)))] [Re.Txt [RebuildIsced.hyphen]] t0).
  set (s2 := RebuildIsced.strip_hyphens s1).
  set (s3 := Re.sub [Re.Plain (Re.Plus (Ascii.eqb RebuildIsced.hyphen))] [Re.Txt [RebuildIsced.hyphen]] s2).
  assert (Hel : forall c, c ∈ s3 -> RebuildIsced.is_lower_alnum c = true \/ c = RebuildIsced.hyphen).
  { intros c [->|[Hc _]]%sub_run_elem_of; [by right|].
    apply strip_hyphens_elem_of, sub_run_elem_of in Hc as [->|[_ Hc]]; [by right|].
    left. by apply negb_false_iff. }
  assert (Hhead : head s3 <> Some RebuildIsced.hyphen).
  { destruct s2 as [|d s2'] eqn:Hs2; [subst s3; by rewrite sub_run_nil|].
    assert (Hd : d <> RebuildIsced.hyphen) by (apply (strip_hyphens_head s1); fold s2; by rewrite Hs2).
    subst s3. rewrite (sub_run_head _ _ _ d); [congruence|done|by apply eqb_hyphen_false]. }
  assert (Hlast : last s3 <> Some RebuildIsced.hyphen).
  { destruct (last s2) as [d|] eqn:Hs2.
    - assert (Hd : d <> RebuildIsced.hyphen) by by apply (strip_hyphens_last s1).
      subst s3. rewrite (sub_run_last _ _ _ d); [congruence|done|by apply eqb_hyphen_false].
    - apply last_None in Hs2. subst s3. rewrite Hs2, sub_run_nil. done. }
  assert (Hdbl : contains [RebuildIsced.hyphen; RebuildIsced.hyphen] s3 = false).
  { apply sub_run_no_double. apply Ascii.eqb_refl. }
  destruct s3 as [|c s3']; [|done].
  repeat split; try done.
  intros c Hc. left. revert c Hc. apply Forall_forall. vm_compute.
  repeat constructor.
Qed.

Section SecondPass.

Import Re RebuildIsced.

Lemma strip_hyphens_infix (s : text) :
  exists a b, s = a ++ strip_hyphens s ++ b.
Proof.
  unfold strip_hyphens.
  destruct (drop_while_split (Ascii.eqb hyphen) s) as (a & Hs & _).
  destruct (drop_while_split (Ascii.eqb hyphen) (rev (drop_while (Ascii.eqb hyphen) s)))
    as (b & Hr & _).
  exists a, (rev b). rewrite <- rev_app_distr, <- Hr, rev_involutive. exact Hs.
Qed.

Lemma sub_run_same (h : ascii) (s : text) :
  contains [h; h] s = false ->
  sub [Plain (Plus (Ascii.eqb h))] [Txt [h]] s = s.
Proof.
  induction s as [|c s IH]; [by rewrite sub_run_nil|].
  cbn [contains]. intros [Hst Hc]%orb_false_iff.
  destruct (Ascii.eqb h c) eqn:Hhc.
  - rewrite sub_run_hit by done. apply Ascii.eqb_eq in Hhc as <-.
    cbn [startswith] in Hst. rewrite Ascii.eqb_refl in Hst.
    assert (Hd : drop_while (Ascii.eqb h) s = s).
    { destruct s as [|d s]; [done|]. simpl in *.
      destruct (Ascii.eqb h d); [done|done]. }
    rewrite Hd. f_equal. by apply IH.
  - rewrite sub_run_skip by done. f_equal. by apply IH.
Qed.

End SecondPass.

(** X15.  The second substitution of [slugify], which replaces a run of
    hyphens by one hyphen, never changes the text: the first substitution
    leaves no two hyphens side by side, and stripping keeps it so.  The slug
    is the stripped result of the first substitution, or [item] when that
    is empty. *)
Theorem slugify_hyphen_runs_already_collapsed (ascii_fold : text -> text) (t : text) :
  Re.sub [Re.Plain (Re.Plus (Ascii.eqb RebuildIsced.hyphen))] [Re.Txt [RebuildIsced.hyphen]]
      (RebuildIsced.strip_hyphens
         (Re.sub [Re.Plain (Re.Plus (fun c => negb (RebuildIsced.is_lower_alnum c)))] [Re.Txt [RebuildIsced.hyphen]]
              (map RebuildIsced.lower_char (ascii_fold t))))
  = RebuildIsced.strip_hyphens
      (Re.sub [Re.Plain (Re.Plus (fun c => negb (RebuildIsced.is_lower_alnum c)))] [Re.Txt [RebuildIsced.hyphen]]
           (map RebuildIsced.lower_char (ascii_fold t)))
  /\ RebuildIsced.slugify ascii_fold t
     = match RebuildIsced.strip_hyphens
               (Re.sub [Re.Plain (Re.Plus (fun c => negb (RebuildIsced.is_lower_alnum c)))] [Re.Txt [RebuildIsced.hyphen]]
                    (map RebuildIsced.lower_char (ascii_fold t))) with
       | [] => txt "item"
       | c :: s => c :: s
       end.
Proof.
  set (s1 := Re.sub _ _ (map RebuildIsced.lower_char (ascii_fold t))).
  assert (H : Re.sub [Re.Plain (Re.Plus (Ascii.eqb RebuildIsced.hyphen))] [Re.Txt [RebuildIsced.hyphen]] (RebuildIsced.strip_hyphens s1)
              = RebuildIsced.strip_hyphens s1).
  { apply sub_run_same.
    destruct (contains [RebuildIsced.hyphen; RebuildIsced.hyphen] (RebuildIsced.strip_hyphens s1)) eqn:Hc; [|done].
    destruct (strip_hyphens_infix s1) as (a & b & Hs).
    assert (Hs1 : contains [RebuildIsced.hyphen; RebuildIsced.hyphen] s1 = true).
    { rewrite Hs. by apply contains_app_r, contains_app_l. }
    unfold s1 in Hs1. rewrite sub_run_no_double in Hs1; done. }
  split; [done|]. unfold RebuildIsced.slugify. fold s1. rewrite H.
  by destruct (RebuildIsced.strip_hyphens s1).
Qed.

(** ** The order of the tree and its labels *)

Section Order.

Import RebuildIsced.

Lemma text_leb_trans (a b c : text) :
  text_leb a b = true -> text_leb b c = true -> text_leb a c = true.
Proof.
  revert b c. induction a as [|x a IH]; intros [|y b] [|z c]; simpl; try done.
  rewrite !orb_true_iff, !andb_true_iff, !Nat.ltb_lt, !Nat.eqb_eq.
  intros [H|[H1 H2]] [H'|[H1' H2']]; try (left; lia).
  right. split; [lia|]. by apply (IH b).
Qed.

Lemma text_leb_total (a b : text) : text_leb a b = false -> text_leb b a = true.
Proof.
  revert b. induction a as [|x a IH]; intros [|y b]; simpl; try done.
  rewrite orb_false_iff, andb_false_iff, orb_true_iff, andb_true_iff.
  rewrite Nat.ltb_ge, Nat.eqb_neq, Nat.ltb_lt, Nat.eqb_eq.
  intros [H1 [H2|H2]]; [left; lia|].
  destruct (decide (nat_of_ascii y = nat_of_ascii x)); [|left; lia].
  right. split; [done|]. by apply IH.
Qed.

Lemma ascending_cons (x : text) (l : list text) :
  Spec.ascending (x :: l) <-> (forall b, b ∈ l -> Spec.text_lt x b) /\ Spec.ascending l.
Proof.
  split.
  - intros H. split.
    + intros b [j Hj]%list_elem_of_lookup_1. apply (H 0%nat (S j) x b); [done|exact Hj|lia].
    + intros i j a b Hi Hj Hij. apply (H (S i) (S j) a b); [exact Hi|exact Hj|lia].
  - intros [Hx Hl] [|i] [|j] a b Hi Hj Hij; try lia.
    + injection Hi as <-. apply Hx. eapply list_elem_of_lookup_2. exact Hj.
    + apply (Hl i j a b); [exact Hi|exact Hj|lia].
Qed.

Lemma ascending_nil : Spec.ascending [].
Proof. intros i j a b Hi. done. Qed.

Lemma insert_sorted_ascending (x : text) (l : list text) :
  Spec.ascending l -> x ∉ l -> Spec.ascending (insert_sorted x l).
Proof.
  induction l as [|y l IH]; simpl; intros Hl Hx.
  - apply ascending_cons. split; [|apply ascending_nil].
    intros b Hb. by apply elem_of_nil in Hb.
  - apply not_elem_of_cons in Hx as [Hxy Hx].
    pose proof Hl as Hl'. apply ascending_cons in Hl' as [Hy Hl'].
    destruct (text_leb x y) eqn:Hle; apply ascending_cons.
    + split; [|done]. intros b [->|Hb]%elem_of_cons; [done|].
      split; [|by intros ->]. apply (text_leb_trans _ y); [done|]. by apply Hy.
    + split; [|by apply IH]. intros b [->|Hb]%insert_sorted_elem_of.
      * split; [by apply text_leb_total|done].
      * by apply Hy.
Qed.

Lemma sorted_ascending (l : list text) : NoDup l -> Spec.ascending (sorted l).
Proof.
  induction 1 as [|x l Hx _ IH]; simpl; [apply ascending_nil|].
  apply insert_sorted_ascending; [done|]. by rewrite sorted_elem_of.
Qed.

Lemma filter_ascending (P : text -> Prop) `{!forall x, Decision (P x)} (l : list text) :
  Spec.ascending l -> Spec.ascending (filter P l).
Proof.
  induction l as [|x l IH]; [done|]. intros [Hx Hl]%ascending_cons.
  rewrite filter_cons. destruct (decide (P x)); [|by apply IH].
  apply ascending_cons. split; [|by apply IH].
  intros b [_ Hb]%list_elem_of_filter. by apply Hx.
Qed.

Lemma setdefault_NoDup (labels : list (text * text)) (c l : text) :
  NoDup (keys labels) -> NoDup (keys (setdefault labels c l)).
Proof.
  intros H. unfold setdefault. destruct (has_key labels c) eqn:Hk; [done|].
  unfold keys. rewrite map_app. apply NoDup_app. split; [done|]. split.
  - intros x Hx [->|[]%elem_of_nil]%elem_of_cons.
    apply has_key_true in Hx. simpl in Hx. congruence.
  - apply NoDup_singleton.
Qed.

Lemma build_labels_NoDup (its : list (text * text)) : NoDup (keys (build_labels its)).
Proof.
  unfold build_labels.
  assert (H : forall acc, NoDup (keys acc) ->
    NoDup (keys (fold_left (fun labels cl => setdefault labels cl.1 cl.2) its acc))).
  { induction its as [|[k l] its IH]; intros acc Hacc; simpl; [done|].
    apply IH. by apply setdefault_NoDup. }
  apply H. constructor.
Qed.

Lemma broad_codes_ascending (its : list (text * text)) :
  Spec.ascending (broad_codes (build_labels its)).
Proof.
  apply sorted_ascending, NoDup_filter, build_labels_NoDup.
Qed.

Lemma narrow_codes_ascending (its : list (text * text)) :
  Spec.ascending (narrow_codes (build_labels its)).
Proof.
  apply sorted_ascending, NoDup_filter, build_labels_NoDup.
Qed.

Lemma detailed_codes_ascending (its : list (text * text)) :
  Spec.ascending (detailed_codes (build_labels its)).
Proof.
  apply sorted_ascending, NoDup_filter, build_labels_NoDup.
Qed.

(** Labels: the first row of a code wins. *)

Lemma lookup_label_app_l (a b : list (text * text)) (c : text) :
  c ∈ keys a -> lookup_label (a ++ b) c = lookup_label a c.
Proof.
  induction a as [|[k l] a IH]; simpl.
  - intros H. by apply elem_of_nil in H.
  - case_bool_decide as Hk; [done|]. intros [->|Hin]%elem_of_cons; [done|]. by apply IH.
Qed.

Lemma lookup_label_app_r (a b : list (text * text)) (c : text) :
  c ∉ keys a -> lookup_label (a ++ b) c = lookup_label b c.
Proof.
  induction a as [|[k l] a IH]; simpl; [done|].
  intros [Hk Ha]%not_elem_of_cons. case_bool_decide as Hkc; [congruence|]. by apply IH.
Qed.

Lemma setdefault_lookup_old (labels : list (text * text)) (c l c' : text) :
  c' ∈ keys labels ->
  lookup_label (setdefault labels c l) c' = lookup_label labels c'.
Proof.
  intros H. unfold setdefault. destruct (has_key labels c); [done|].
  by apply lookup_label_app_l.
Qed.

Lemma fold_setdefault_lookup_old (its acc : list (text * text)) (c : text) :
  c ∈ keys acc ->
  lookup_label (fold_left (fun labels cl => setdefault labels cl.1 cl.2) its acc) c
  = lookup_label acc c.
Proof.
  revert acc. induction its as [|[k l] its IH]; intros acc H; simpl; [done|].
  rewrite IH; [by apply setdefault_lookup_old|].
  apply setdefault_keys. by right.
Qed.

Lemma build_labels_first_seen (pre post : list (text * text)) (c l : text) :
  c ∉ keys pre ->
  lookup_label (build_labels (pre ++ (c, l) :: post)) c = l.
Proof.
  intros Hc. unfold build_labels. rewrite fold_left_app. simpl.
  fold (build_labels pre).
  assert (Hk : has_key (build_labels pre) c = false).
  { destruct (has_key (build_labels pre) c) eqn:Hk; [|done].
    apply has_key_true in Hk. by apply (proj1 (build_labels_keys pre c)) in Hk. }
  rewrite fold_setdefault_lookup_old.
  - unfold setdefault. rewrite Hk. rewrite lookup_label_app_r.
    + simpl. by rewrite bool_decide_eq_true_2.
    + intros H. apply has_key_true in H. congruence.
  - apply setdefault_keys. by left.
Qed.

End Order.

Section Tree.

Import RebuildIsced.

Variable ascii_fold : text -> text.

Lemma domain_codes (labels : list (text * text)) (l : list text) :
  map (fun d => code (domain_node d)) (map (build_domain ascii_fold labels) l) = l.
Proof. rewrite map_map. simpl. apply map_id. Qed.

Lemma subject_codes (labels : list (text * text)) (l : list text) :
  map (fun s => code (subject_node s)) (map (build_subject ascii_fold labels) l) = l.
Proof. rewrite map_map. simpl. apply map_id. Qed.

Lemma topic_codes (labels : list (text * text)) (l : list text) :
  map (fun t => code (topic_node t)) (map (build_topic ascii_fold labels) l) = l.
Proof. rewrite map_map. simpl. apply map_id. Qed.

Lemma startswith_take_self (n : nat) (s : text) : startswith s (take n s) = true.
Proof.
  revert n. induction s as [|c s IH]; intros [|n]; simpl; try done.
  by rewrite Ascii.eqb_refl, IH.
Qed.

Lemma domains_elem_of_2 (rows : list row) (bc : text) :
  bc ∈ broad_codes (build_labels (items rows)) ->
  build_domain ascii_fold (build_labels (items rows)) bc ∈ domains ascii_fold rows.
Proof.
  intros H. unfold domains. apply list_elem_of_In, in_map, list_elem_of_In, H.
Qed.

Lemma subjects_elem_of_2 labels (bc nc : text) :
  nc ∈ narrow_codes labels -> startswith nc bc = true ->
  build_subject ascii_fold labels nc ∈ subjects (build_domain ascii_fold labels bc).
Proof.
  intros H Hp. simpl. apply list_elem_of_In, in_map, list_elem_of_In.
  by apply list_elem_of_filter.
Qed.

Lemma topics_elem_of_2 labels (nc dc : text) :
  dc ∈ detailed_codes labels -> startswith dc nc = true ->
  build_topic ascii_fold labels dc ∈ topics (build_subject ascii_fold labels nc).
Proof.
  intros H Hp. simpl. apply list_elem_of_In, in_map, list_elem_of_In.
  by apply list_elem_of_filter.
Qed.

End Tree.


(** X17.  When a code stands in several rows, the label of its first row is
    the label of its node, at each of the three levels of the tree. *)
Theorem first_row_label_wins (ascii_fold : text -> text) (rows : list RebuildIsced.row)
    (pre post : list (text * text)) (c l : text) :
  RebuildIsced.items rows = pre ++ (c, l) :: post -> c ∉ RebuildIsced.keys pre ->
  (forall d, d ∈ RebuildIsced.domains ascii_fold rows ->
     RebuildIsced.code (RebuildIsced.domain_node d) = c -> RebuildIsced.label (RebuildIsced.domain_node d) = l)
  /\ (forall d s, d ∈ RebuildIsced.domains ascii_fold rows -> s ∈ RebuildIsced.subjects d ->
        RebuildIsced.code (RebuildIsced.subject_node s) = c -> RebuildIsced.label (RebuildIsced.subject_node s) = l)
  /\ (forall d s t, d ∈ RebuildIsced.domains ascii_fold rows -> s ∈ RebuildIsced.subjects d -> t ∈ RebuildIsced.topics s ->
        RebuildIsced.code (RebuildIsced.topic_node t) = c -> RebuildIsced.label (RebuildIsced.topic_node t) = l).
Proof.
  intros Hits Hc.
  pose proof (build_labels_first_seen pre post c l Hc) as Hl. rewrite <- Hits in Hl.
  split; [|split].
  - intros d (bc & -> & _)%domains_elem_of. simpl. by intros ->.
  - intros d s (bc & -> & _)%domains_elem_of (nc & -> & _)%subjects_elem_of.
    simpl. by intros ->.
  - intros d s t (bc & -> & _)%domains_elem_of (nc & -> & _)%subjects_elem_of
      (dc & -> & _)%topics_elem_of.
    simpl. by intros ->.
Qed.

(** In the example rows the code [01] stands twice: its domain carries the
    label of the first row. *)
Lemma first_row_label_wins_witness :
  map (fun d => RebuildIsced.label (RebuildIsced.domain_node d))
      (RebuildIsced.domains (fun t => t) Examples.isced_rows)
  = [txt "Education"]
  /\ (forall d,
        d ∈ RebuildIsced.domains (fun t => t) Examples.isced_rows ->
        RebuildIsced.code (RebuildIsced.domain_node d) = txt "01" ->
        RebuildIsced.label (RebuildIsced.domain_node d) = txt "Education").
Proof.
  split; [vm_compute; reflexivity|].
  destruct (first_row_label_wins (fun t => t) Examples.isced_rows []
              (drop 1 (RebuildIsced.items Examples.isced_rows))
              (txt "01") (txt "Education")) as (H & _).
  - vm_compute. reflexivity.
  - apply not_elem_of_nil.
  - exact H.
Defined.

(** X18.  The tree lists its codes in strictly ascending order: the domains,
    the subjects of every domain and the topics of every subject.  No code
    stands twice at its place. *)
Theorem tree_codes_ascending (ascii_fold : text -> text) (rows : list RebuildIsced.row) :
  Spec.ascending (map (fun d => RebuildIsced.code (RebuildIsced.domain_node d)) (RebuildIsced.domains ascii_fold rows))
  /\ (forall d, d ∈ RebuildIsced.domains ascii_fold rows ->
        Spec.ascending (map (fun s => RebuildIsced.code (RebuildIsced.subject_node s)) (RebuildIsced.subjects d)))
  /\ (forall d s, d ∈ RebuildIsced.domains ascii_fold rows -> s ∈ RebuildIsced.subjects d ->
        Spec.ascending (map (fun t => RebuildIsced.code (RebuildIsced.topic_node t)) (RebuildIsced.topics s))).
Proof.
  split; [|split].
  - unfold RebuildIsced.domains. rewrite domain_codes. apply broad_codes_ascending.
  - intros d (bc & -> & _)%domains_elem_of. cbn [RebuildIsced.subjects RebuildIsced.build_domain].
    rewrite subject_codes. apply filter_ascending, narrow_codes_ascending.
  - intros d s (bc & -> & _)%domains_elem_of (nc & -> & _)%subjects_elem_of.
    cbn [RebuildIsced.topics RebuildIsced.build_subject].
    rewrite topic_codes. apply filter_ascending, detailed_codes_ascending.
Qed.

(** X19.  No kept code is lost from the tree when its prefixes are kept: a
    code of two digits is the code of a domain; a code of three digits
    whose first two are a kept code is a subject of that domain; a code of
    four digits whose first three and first two are kept codes is a topic
    of that subject of that domain. *)
Theorem hierarchy_complete (ascii_fold : text -> text) (rows : list RebuildIsced.row) (c : text) :
  c ∈ RebuildIsced.keys (RebuildIsced.items rows) ->
  (length c = 2%nat ->
   exists d, d ∈ RebuildIsced.domains ascii_fold rows /\ RebuildIsced.code (RebuildIsced.domain_node d) = c)
  /\ (length c = 3%nat -> take 2 c ∈ RebuildIsced.keys (RebuildIsced.items rows) ->
      exists d s, d ∈ RebuildIsced.domains ascii_fold rows /\ s ∈ RebuildIsced.subjects d
                  /\ RebuildIsced.code (RebuildIsced.domain_node d) = take 2 c /\ RebuildIsced.code (RebuildIsced.subject_node s) = c)
  /\ (length c = 4%nat -> take 3 c ∈ RebuildIsced.keys (RebuildIsced.items rows) ->
      take 2 c ∈ RebuildIsced.keys (RebuildIsced.items rows) ->
      exists d s t, d ∈ RebuildIsced.domains ascii_fold rows /\ s ∈ RebuildIsced.subjects d /\ t ∈ RebuildIsced.topics s
                    /\ RebuildIsced.code (RebuildIsced.domain_node d) = take 2 c
                    /\ RebuildIsced.code (RebuildIsced.subject_node s) = take 3 c
                    /\ RebuildIsced.code (RebuildIsced.topic_node t) = c).
Proof.
  intros Hc. set (labels := RebuildIsced.build_labels (RebuildIsced.items rows)).
  assert (Hkey : forall k, k ∈ RebuildIsced.keys (RebuildIsced.items rows) -> k ∈ RebuildIsced.keys labels).
  { intros k Hk. by apply build_labels_keys. }
  assert (Hbroad : forall k, length k = 2%nat -> k ∈ RebuildIsced.keys (RebuildIsced.items rows) ->
            RebuildIsced.build_domain ascii_fold labels k ∈ RebuildIsced.domains ascii_fold rows).
  { intros k Hlen Hk. apply domains_elem_of_2, broad_codes_elem_of. auto. }
  assert (Hnarrow : forall k, length k = 3%nat -> k ∈ RebuildIsced.keys (RebuildIsced.items rows) ->
            take 2 k ∈ RebuildIsced.keys (RebuildIsced.items rows) ->
            RebuildIsced.build_subject ascii_fold labels k
              ∈ RebuildIsced.subjects (RebuildIsced.build_domain ascii_fold labels (take 2 k))).
  { intros k Hlen Hk Hk2. apply subjects_elem_of_2; [|apply startswith_take_self].
    apply narrow_codes_elem_of. auto. }
  split; [|split].
  - intros Hlen. eexists. split; [by apply Hbroad|done].
  - intros Hlen H2. do 2 eexists. split; [apply Hbroad; [|exact H2]|].
    + rewrite length_take. lia.
    + split; [by apply Hnarrow|done].
  - intros Hlen H3 H2.
    assert (Ht : take 2 (take 3 c) = take 2 c) by (rewrite take_take; f_equal; lia).
    exists (RebuildIsced.build_domain ascii_fold labels (take 2 c)),
           (RebuildIsced.build_subject ascii_fold labels (take 3 c)),
           (RebuildIsced.build_topic ascii_fold labels c).
    split; [apply Hbroad; [rewrite length_take; lia|done]|].
    split.
    { rewrite <- Ht. apply Hnarrow; [rewrite length_take; lia|done|by rewrite Ht]. }
    split; [|done].
    apply topics_elem_of_2; [|apply startswith_take_self].
    apply detailed_codes_elem_of. auto.
Qed.

(** The detailed field [0111] of the example rows is found under [011]
    under [01]. *)
Lemma hierarchy_complete_witness :
  exists d s t,
    d ∈ RebuildIsced.domains (fun t => t) Examples.isced_rows
    /\ s ∈ RebuildIsced.subjects d /\ t ∈ RebuildIsced.topics s
    /\ RebuildIsced.code (RebuildIsced.domain_node d) = txt "01"
    /\ RebuildIsced.code (RebuildIsced.subject_node s) = txt "011"
    /\ RebuildIsced.code (RebuildIsced.topic_node t) = txt "0111".
Proof.
  destruct (hierarchy_complete (fun t => t) Examples.isced_rows (txt "0111"))
    as (_ & _ & H).
  - apply (list_elem_of_lookup_2 _ 2). vm_compute. reflexivity.
  - apply H.
    + reflexivity.
    + apply (list_elem_of_lookup_2 _ 1). vm_compute. reflexivity.
    + apply (list_elem_of_lookup_2 _ 0). vm_compute. reflexivity.
Defined.

(** ** The run of the cleanup over the pages *)

Section CleanupMain.

Import CleanupHtmlSimple.

Lemma clean_file_lookup (f p : string) (fs : store) :
  clean_html_structure_simple f fs !! p
  = if decide (p = f) then clean <$> fs !! p else fs !! p.
Proof.
  unfold clean_html_structure_simple, write_file.
  destruct (decide (p = f)) as [->|Hne].
  - destruct (fs !! f) eqn:Hf; [by rewrite lookup_insert_eq|by rewrite Hf].
  - destruct (fs !! f); [by rewrite lookup_insert_ne|done].
Qed.

End CleanupMain.

(** X20.  [main] of cleanup-html-simple.py over a list of distinct paths:
    every listed file that is there is replaced by its cleaned content,
    once; a listed path with no file is passed over without an error, and
    no other file changes. *)
Theorem cleanup_main_cleans_each_file_once (html_files : list string) (fs : store) :
  NoDup html_files ->
  forall p, Mains.cleanup_main html_files fs !! p
            = if decide (p ∈ html_files) then CleanupHtmlSimple.clean <$> fs !! p else fs !! p.
Proof.
  unfold Mains.cleanup_main. intros Hnd. revert fs.
  induction Hnd as [|f rest Hf _ IH]; intros fs p; cbn [fold_left].
  - destruct (decide (p ∈ [])) as [Hp|_]; [by apply elem_of_nil in Hp|done].
  - rewrite IH, clean_file_lookup.
    destruct (decide (p ∈ rest)) as [Hp|Hp], (decide (p = f)) as [Heq|Hne],
      (decide (p ∈ f :: rest)) as [Hp'|Hp']; subst; try done;
      exfalso; rewrite elem_of_cons in Hp'; intuition congruence.
Qed.

(** Two pages, the second one missing: the first is cleaned once, so one
    level of the nested wrappers is left. *)
Lemma cleanup_main_cleans_each_file_once_witness :
  Mains.cleanup_main ["a.html"; "missing.html"]%string
    {["a.html"%string := Examples.nested_empty_divs]} !! "a.html"%string
  = Some (txt "<div></div>")
  /\ Mains.cleanup_main ["a.html"; "missing.html"]%string
       {["a.html"%string := Examples.nested_empty_divs]} !! "missing.html"%string
     = None.
Proof.
  assert (Hnd : NoDup ["a.html"; "missing.html"]%string).
  { repeat constructor; rewrite ?elem_of_cons, ?elem_of_nil; intuition discriminate. }
  pose proof (cleanup_main_cleans_each_file_once
                ["a.html"; "missing.html"]%string
                {["a.html"%string := Examples.nested_empty_divs]} Hnd) as H.
  split; rewrite H; vm_compute; reflexivity.
Defined.
